(** * Slide deck controller: a shallow embedding of [assets/slides.js]

    The repository ships three copies of the controller script:
    - [did-slides-2/assets/slides.js]: [SlidePresenter] with the dialog gate,
      and the unified [InfoDialogManager];
    - [assets/slides.js]: [SlidePresenter] without the gate, and the two older
      controllers [LectureNotesModal] and [DetailButtons];
    - a third copy that holds only the ungated [SlidePresenter].

    The functions [next], [prev], [goToSlide], [goToIndex], [updateNav] and
    [toggleFullscreen] are textually the same in all three; they live in
    [Module Presenter].  The event wiring differs and is embedded twice, in
    [Module Unified] and in [Module Split].  [Module Contract] puts the two
    variants behind one alphabet of user inputs, and [Module Samples] holds
    the concrete pages the examples run on.

    Modelling conventions.
    - JavaScript numbers are integers of [Z]; [NaN] is [None].  The script only
      compares slide numbers and adds or subtracts one, which is exact on
      every integer a slide deck can carry.
    - Strings are [string]; [undefined] for a missing data attribute is [None].
    - The page is a record of what the script queries; the DOM state the script
      writes (class lists, text content, [window.location.href]) is part of the
      state record.  Assignments to [window.location.href] are logged, newest
      first, so that "no navigation" is "the log did not grow".
    - An uncaught exception aborts the rest of the running handler and is
      logged; the mutations made before it stay.
    - Event dispatch follows the DOM: listeners of one node run in
      registration order, [stopPropagation] ends the walk after the current
      node, [stopImmediatePropagation] ends it at once. *)

From Stdlib Require Import ZArith String Ascii List Lia Bool DecimalString.
From stdpp Require Import base list.

Open Scope string_scope.
Open Scope Z_scope.

(* ===================================================================== *)
(** ** The JavaScript built-ins the script calls *)
(* ===================================================================== *)

Module JS.

(** [String(n)] for an integer [n]. *)
Definition String_ (n : Z) : string := NilZero.string_of_int (Z.to_int n).

(** [fuel] characters read cyclically from [fill], continuing at [cur]. *)
Fixpoint cycle (fuel : nat) (fill cur : string) : string :=
  match fuel with
  | O => ""
  | S k =>
      match cur with
      | String c r => String c (cycle k fill r)
      | EmptyString =>
          match fill with
          | String c r => String c (cycle k fill r)
          | EmptyString => ""
          end
      end
  end.

(** [s.padStart(target, fill)]. *)
Definition padStart (target : nat) (fill s : string) : string :=
  if (target <=? String.length s)%nat then s
  else cycle (target - String.length s) fill fill ++ s.

(** Leading white space skipped by [parseInt] (the ASCII part of it). *)
Definition isWhite (c : ascii) : bool :=
  let n := nat_of_ascii c in
  ((9 <=? n) && (n <=? 13) || (n =? 32))%nat.

Fixpoint trimStart (s : string) : string :=
  match s with
  | String c r => if isWhite c then trimStart r else s
  | EmptyString => s
  end.

(** Value of a character as a digit, in any radix up to 36. *)
Definition digitVal (c : ascii) : option Z :=
  let n := Z.of_nat (nat_of_ascii c) in
  if (48 <=? n) && (n <=? 57) then Some (n - 48)
  else if (97 <=? n) && (n <=? 122) then Some (n - 87)
  else if (65 <=? n) && (n <=? 90) then Some (n - 55)
  else None.

(** The longest prefix of radix-[R] digits, as a number; [acc] is [None]
    until a digit has been read. *)
Fixpoint digits (R : Z) (s : string) (acc : option Z) : option Z :=
  match s with
  | EmptyString => acc
  | String c r =>
      match digitVal c with
      | Some d =>
          if d <? R
          then digits R r (Some (match acc with Some a => a * R + d | None => d end))
          else acc
      | None => acc
      end
  end.

Definition stripSign (s : string) : Z * string :=
  match s with
  | String "-" r => (-1, r)
  | String "+" r => (1, r)
  | _ => (1, s)
  end.

Definition stripHex (s : string) : Z * string :=
  match s with
  | String "0" (String "x" r) => (16, r)
  | String "0" (String "X" r) => (16, r)
  | _ => (10, s)
  end.

(** [parseInt(x)] with no radix argument.  [x = None] is [undefined], which
    is first converted to the string ["undefined"].  [None] is [NaN]. *)
Definition parseInt (x : option string) : option Z :=
  let input := match x with Some s => s | None => "undefined" end in
  let '(sign, s1) := stripSign (trimStart input) in
  let '(R, s2) := stripHex s1 in
  match digits R s2 None with
  | Some m => Some (sign * m)
  | None => None
  end.

(** [n || d] for a number [n]: [NaN] and zero are falsy. *)
Definition or_number (n : option Z) (d : Z) : Z :=
  match n with
  | Some z => if z =? 0 then d else z
  | None => d
  end.

(** Truthiness of a value that is a string or [undefined]. *)
Definition truthy (x : option string) : bool :=
  match x with
  | Some EmptyString => false
  | Some _ => true
  | None => false
  end.

(** [x || d] for strings. *)
Definition or_string (x : option string) (d : string) : string :=
  match x with
  | Some EmptyString => d
  | Some s => s
  | None => d
  end.

(** [a[i]] on an array: [undefined] outside of it. *)
Definition index {A} (a : list A) (i : Z) : option A :=
  if i <? 0 then None else a !! Z.to_nat i.

(** Errors the script can raise. *)
Inductive Error := TypeError (what : string) | UnhandledRejection.

(** Does slide [n] print with two characters once padded. *)
Definition two_wide (n : nat) : bool :=
  (String.length (padStart 2 "0" (String_ (Z.of_nat n))) =? 2)%nat.

End JS.

(* ===================================================================== *)
(** ** SlidePresenter *)
(* ===================================================================== *)

Module Presenter.

(** The data attributes of [.slide-container]. *)
Record Dataset := {
  data_total_slides : option string;
  data_current_slide : option string;
  data_next_slide : option string;
  data_prev_slide : option string
}.

(** What the presenter queries from the page. *)
Record Page := {
  slide_container : option Dataset;  (* querySelector('.slide-container') *)
  fragment_els : list bool;          (* the .fragment elements in document
                                        order: is the class 'visible' set *)
  slide_number_el : option string;   (* text of #slide-number, if present *)
  slide_el : bool                    (* is there a .slide element *)
}.

(** The fields of the object, followed by the page and window state it
    writes.  [fragments] holds the elements themselves: entry [i] is whether
    fragment [i] carries the class 'visible'. *)
Record State := {
  currentFragmentIndex : Z;
  fragments : list bool;
  totalSlides : Z;
  currentSlide : Z;
  href : list string;              (* window.location.href assignments *)
  slide_number : option string;    (* textContent of #slide-number *)
  slide_enter : bool;              (* .slide carries 'slide-enter' *)
  fullscreen : bool;               (* document.fullscreenElement is set *)
  uncaught : list JS.Error
}.

Definition set_currentFragmentIndex (i : Z) (s : State) : State :=
  {| currentFragmentIndex := i; fragments := fragments s;
     totalSlides := totalSlides s; currentSlide := currentSlide s;
     href := href s; slide_number := slide_number s;
     slide_enter := slide_enter s; fullscreen := fullscreen s;
     uncaught := uncaught s |}.

Definition set_fragments (f : list bool) (s : State) : State :=
  {| currentFragmentIndex := currentFragmentIndex s; fragments := f;
     totalSlides := totalSlides s; currentSlide := currentSlide s;
     href := href s; slide_number := slide_number s;
     slide_enter := slide_enter s; fullscreen := fullscreen s;
     uncaught := uncaught s |}.

Definition set_slides (total current : Z) (s : State) : State :=
  {| currentFragmentIndex := currentFragmentIndex s; fragments := fragments s;
     totalSlides := total; currentSlide := current;
     href := href s; slide_number := slide_number s;
     slide_enter := slide_enter s; fullscreen := fullscreen s;
     uncaught := uncaught s |}.

(** [window.location.href = url]. *)
Definition assign_href (url : string) (s : State) : State :=
  {| currentFragmentIndex := currentFragmentIndex s; fragments := fragments s;
     totalSlides := totalSlides s; currentSlide := currentSlide s;
     href := url :: href s; slide_number := slide_number s;
     slide_enter := slide_enter s; fullscreen := fullscreen s;
     uncaught := uncaught s |}.

Definition set_slide_number (t : option string) (s : State) : State :=
  {| currentFragmentIndex := currentFragmentIndex s; fragments := fragments s;
     totalSlides := totalSlides s; currentSlide := currentSlide s;
     href := href s; slide_number := t;
     slide_enter := slide_enter s; fullscreen := fullscreen s;
     uncaught := uncaught s |}.

Definition set_slide_enter (b : bool) (s : State) : State :=
  {| currentFragmentIndex := currentFragmentIndex s; fragments := fragments s;
     totalSlides := totalSlides s; currentSlide := currentSlide s;
     href := href s; slide_number := slide_number s;
     slide_enter := b; fullscreen := fullscreen s;
     uncaught := uncaught s |}.

Definition set_fullscreen (b : bool) (s : State) : State :=
  {| currentFragmentIndex := currentFragmentIndex s; fragments := fragments s;
     totalSlides := totalSlides s; currentSlide := currentSlide s;
     href := href s; slide_number := slide_number s;
     slide_enter := slide_enter s; fullscreen := b;
     uncaught := uncaught s |}.

Definition throw (e : JS.Error) (s : State) : State :=
  {| currentFragmentIndex := currentFragmentIndex s; fragments := fragments s;
     totalSlides := totalSlides s; currentSlide := currentSlide s;
     href := href s; slide_number := slide_number s;
     slide_enter := slide_enter s; fullscreen := fullscreen s;
     uncaught := e :: uncaught s |}.

(** Number of collected fragments, [this.fragments.length]. *)
Definition length_ (s : State) : Z := Z.of_nat (length (fragments s)).

(** The name of a slide file: [`slide-${paddedNum}.html`]. *)
Definition slide_file (slideNum : Z) : string :=
  "slide-" ++ JS.padStart 2 "0" (JS.String_ slideNum) ++ ".html".

Definition updateNav (s : State) : State :=
  match slide_number s with
  | Some _ =>
      set_slide_number
        (Some (JS.String_ (currentSlide s) ++ " / " ++ JS.String_ (totalSlides s))) s
  | None => s
  end.

Definition goToSlide (slideNum : Z) (s : State) : State :=
  if (1 <=? slideNum) && (slideNum <=? totalSlides s)
  then assign_href (slide_file slideNum) s
  else s.

Definition goToIndex (s : State) : State := assign_href "index.html" s.

(** The granted case: the request flips [document.fullscreenElement]. *)
Definition toggleFullscreen (s : State) : State :=
  if negb (fullscreen s) then set_fullscreen true s else set_fullscreen false s.

(** [container && container.dataset.<key>]: the configured custom target. *)
Definition custom_target (pg : Page) (key : Dataset -> option string)
  : option string :=
  match slide_container pg with
  | Some c => if JS.truthy (key c) then key c else None
  | None => None
  end.

Definition next (pg : Page) (s : State) : State :=
  if currentFragmentIndex s <? length_ s - 1 then
    let s1 := set_currentFragmentIndex (currentFragmentIndex s + 1) s in
    match JS.index (fragments s1) (currentFragmentIndex s1) with
    | Some _ =>
        updateNav
          (set_fragments
             (<[Z.to_nat (currentFragmentIndex s1) := true]> (fragments s1)) s1)
    | None => throw (JS.TypeError "classList of undefined") s1
    end
  else
    match custom_target pg data_next_slide with
    | Some url => assign_href url s
    | None =>
        updateNav
          (if currentSlide s <? totalSlides s
           then goToSlide (currentSlide s + 1) s
           else s)
    end.

Definition prev (pg : Page) (s : State) : State :=
  if 0 <=? currentFragmentIndex s then
    match JS.index (fragments s) (currentFragmentIndex s) with
    | Some _ =>
        updateNav
          (set_currentFragmentIndex (currentFragmentIndex s - 1)
             (set_fragments
                (<[Z.to_nat (currentFragmentIndex s) := false]> (fragments s)) s))
    | None => throw (JS.TypeError "classList of undefined") s
    end
  else
    match custom_target pg data_prev_slide with
    | Some url => assign_href url s
    | None =>
        updateNav
          (if 1 <? currentSlide s
           then goToSlide (currentSlide s - 1) s
           else s)
    end.

(** Membership of [e.key] in the labels of one [case] group. *)
Definition key_in (key : string) (labels : list string) : bool :=
  existsb (String.eqb key) labels.

(** The [switch (e.key)] of [handleKeydown], the same in every copy of the
    script.  [e.preventDefault()] only cancels the browser's own reaction to
    the key and leaves this state alone. *)
Definition switch_key (pg : Page) (key : string) (s : State) : State :=
  if key_in key ["ArrowRight"; " "; "Enter"] then next pg s
  else if key_in key ["ArrowLeft"; "Backspace"] then prev pg s
  else if key_in key ["Home"] then goToSlide 1 s
  else if key_in key ["End"] then goToSlide (totalSlides s) s
  else if key_in key ["Escape"] then goToIndex s
  else if key_in key ["f"] then toggleFullscreen s
  else s.

(** The field initialisers of the constructor. *)
Definition fresh (pg : Page) : State :=
  {| currentFragmentIndex := -1; fragments := [];
     totalSlides := 0; currentSlide := 1;
     href := []; slide_number := slide_number_el pg;
     slide_enter := false; fullscreen := false; uncaught := [] |}.

(** [init()], without the listener registrations: those are the dispatch
    functions of the two variants. *)
Definition init (pg : Page) (s : State) : State :=
  let s1 := set_fragments (fragment_els pg) s in
  let s2 :=
    match slide_container pg with
    | Some c =>
        set_slides (JS.or_number (JS.parseInt (data_total_slides c)) 1)
                   (JS.or_number (JS.parseInt (data_current_slide c)) 1) s1
    | None => s1
    end in
  let s3 := updateNav s2 in
  if slide_el pg then set_slide_enter true s3 else s3.

(** [new SlidePresenter()]. *)
Definition constructor (pg : Page) : State := init pg (fresh pg).

(** The range of the fragment index. *)
Definition inv (s : State) : Prop :=
  -1 <= currentFragmentIndex s <= length_ s - 1.

(** A call of [next()] or [prev()]. *)
Inductive call := Next | Prev.

Definition do_call (pg : Page) (c : call) (s : State) : State :=
  match c with Next => next pg s | Prev => prev pg s end.

Definition run (pg : Page) (cs : list call) (s : State) : State :=
  fold_left (fun acc c => do_call pg c acc) cs s.

(** [n] calls of [next()] in a row. *)
Fixpoint nexts (pg : Page) (n : nat) (s : State) : State :=
  match n with
  | O => s
  | S k => nexts pg k (next pg s)
  end.

(** Fragment index, fragment classes and navigation log of a state. *)
Definition observed (s : State) : Z * list bool * list string :=
  (currentFragmentIndex s, fragments s, href s).

End Presenter.

(* ===================================================================== *)
(** ** Elements and click events, shared by both variants *)
(* ===================================================================== *)

Module Dom.

(** An element on the propagation path of a click, as far as the handlers
    look at it: its tag name (upper case, as the DOM reports it for HTML
    elements), its classes, and which of the elements the script holds a
    reference to it is ([R] is the variant's type of such references). *)
Record Element (R : Type) := {
  tagName : string;
  classes : list string;
  role : R
}.
Arguments tagName {R} _.
Arguments classes {R} _.
Arguments role {R} _.

(** A click: [e.target] and its ancestors, innermost first. *)
Record Click (R : Type) := {
  target : Element R;
  ancestors : list (Element R)
}.
Arguments target {R} _.
Arguments ancestors {R} _.

Definition path {R} (ev : Click R) : list (Element R) :=
  target ev :: ancestors ev.

Definition has_tag {R} (t : string) (e : Element R) : bool :=
  String.eqb (tagName e) t.

Definition has_class {R} (c : string) (e : Element R) : bool :=
  existsb (String.eqb c) (classes e).

(** [e.target.closest(sel)] for a selector that [matches] decides: the
    target itself or one of its ancestors. *)
Definition closest {R} (matches : Element R -> bool) (ev : Click R) : bool :=
  existsb matches (path ev).

(** The test that opens the click handler of [.slide]: the target is, or is
    inside of, a link, a button or the home button. *)
Definition on_control {R} (ev : Click R) : bool :=
  has_tag "A" (target ev) || has_tag "BUTTON" (target ev) ||
  closest (has_tag "A") ev || closest (has_tag "BUTTON") ev ||
  closest (has_class "home-btn") ev.

(** Bubbling: the listeners of each element on the path, innermost first,
    until one of them has stopped the propagation. *)
Fixpoint bubble {R W} (listeners : Element R -> W -> W * bool)
    (nodes : list (Element R)) (w : W) : W :=
  match nodes with
  | [] => w
  | e :: up =>
      let '(w', stopped) := listeners e w in
      if stopped then w' else bubble listeners up w'
  end.

End Dom.

(* ===================================================================== *)
(** ** The unified variant: gated SlidePresenter and InfoDialogManager *)
(* ===================================================================== *)

Module Unified.

(** An [.info-btn] element. *)
Record InfoBtn := {
  data_dialog : option string;
  textContent : string
}.

(** An element that carries an id. *)
Record Target := {
  el_id : string;
  data_title : option string;
  innerHTML : string
}.

Record Page := {
  base : Presenter.Page;
  info_btns : list InfoBtn;      (* querySelectorAll('.info-btn') *)
  elements : list Target;        (* the elements with an id, document order *)
  MathJax : bool                 (* window.MathJax is set; it is then the
                                    engine, whose typesetPromise returns a
                                    promise *)
}.

(** The rejection handler attached to a promise: the script has one,
    [() => {}]. *)
Inductive Handler := Swallow.

Record World := {
  presenter : Presenter.State;
  overlay_open : bool;           (* overlay.classList.contains('open') *)
  dialog_title : string;         (* textContent of .dialog-title *)
  dialog_body : string;          (* innerHTML of .dialog-body *)
  pending : list (option Handler)  (* typesetPromise results not yet settled,
                                      oldest first, with their catch handler *)
}.

Definition with_presenter (f : Presenter.State -> Presenter.State) (w : World)
  : World :=
  {| presenter := f (presenter w); overlay_open := overlay_open w;
     dialog_title := dialog_title w; dialog_body := dialog_body w;
     pending := pending w |}.

Definition set_open (b : bool) (w : World) : World :=
  {| presenter := presenter w; overlay_open := b;
     dialog_title := dialog_title w; dialog_body := dialog_body w;
     pending := pending w |}.

Definition set_content (t b : string) (w : World) : World :=
  {| presenter := presenter w; overlay_open := overlay_open w;
     dialog_title := t; dialog_body := b; pending := pending w |}.

Definition set_pending (p : list (option Handler)) (w : World) : World :=
  {| presenter := presenter w; overlay_open := overlay_open w;
     dialog_title := dialog_title w; dialog_body := dialog_body w;
     pending := p |}.

(** [isOpen()]; [this.overlay] is set from [init()] on. *)
Definition isOpen (w : World) : bool := overlay_open w.

(** [open(title, bodyHtml)]. *)
Definition open (pg : Page) (title bodyHtml : string) (w : World) : World :=
  let w1 := set_open true (set_content title bodyHtml w) in
  if MathJax pg
  then set_pending (pending w1 ++ [Some Swallow]) w1
  else w1.

Definition close (w : World) : World := set_open false w.

(** How the rendering engine ends a [typesetPromise]. *)
Inductive Outcome := Fulfilled | Rejected.

(** The oldest pending promise settles: a rejection runs its handler, and is
    reported when it has none. *)
Definition settle (o : Outcome) (w : World) : World :=
  match pending w with
  | [] => w
  | h :: rest =>
      let w' := set_pending rest w in
      match o, h with
      | Fulfilled, _ => w'
      | Rejected, Some Swallow => w'
      | Rejected, None => with_presenter (Presenter.throw JS.UnhandledRejection) w'
      end
  end.

(** [document.getElementById(id)]; no element has the empty id. *)
Definition getElementById (pg : Page) (id : string) : option Target :=
  if String.eqb id "" then None
  else find (fun t => String.eqb (el_id t) id) (elements pg).

(** The argument of [getElementById] is converted to a string. *)
Definition to_id (x : option string) : string :=
  match x with Some s => s | None => "undefined" end.

(** The elements the script holds a reference to.  They are distinct
    elements: [init()] creates the overlay and its close button itself, after
    the presenter has looked up [.slide]; an info button that is at the same
    time the [.slide] element is left out. *)
Inductive Role :=
| Plain                (* none of them *)
| Slide                (* querySelector('.slide'), which has the listener *)
| Overlay              (* this.overlay *)
| CloseBtn             (* overlay.querySelector('.close-btn') *)
| InfoBtnEl (k : nat). (* entry k of querySelectorAll('.info-btn') *)

Definition is_overlay (e : Dom.Element Role) : bool :=
  match Dom.role e with Overlay => true | _ => false end.

(** The click listener of [.slide]. *)
Definition slide_click (pg : Page) (ev : Dom.Click Role) (w : World) : World :=
  if Dom.on_control ev then w
  else if isOpen w then w
  else with_presenter (Presenter.next (base pg)) w.

(** The click listener of an info button; [stopPropagation] is reported by
    [listeners]. *)
Definition info_click (pg : Page) (btn : InfoBtn) (w : World) : World :=
  match getElementById pg (to_id (data_dialog btn)) with
  | Some target =>
      open pg (JS.or_string (data_title target) (textContent btn))
           (innerHTML target) w
  | None => w
  end.

(** The click listeners of one element, and whether they stopped the
    propagation. *)
Definition listeners (pg : Page) (ev : Dom.Click Role) (e : Dom.Element Role)
    (w : World) : World * bool :=
  match Dom.role e with
  | Plain => (w, false)
  | Slide => (slide_click pg ev w, false)
  | Overlay => (if is_overlay (Dom.target ev) then close w else w, true)
  | CloseBtn => (close w, true)
  | InfoBtnEl k =>
      match info_btns pg !! k with
      | Some btn => (info_click pg btn w, true)
      | None => (w, false)
      end
  end.

Definition click (pg : Page) (ev : Dom.Click Role) (w : World) : World :=
  Dom.bubble (listeners pg ev) (Dom.path ev) w.

(** [handleKeydown(e)] of the presenter. *)
Definition handleKeydown (pg : Page) (key : string) (w : World) : World :=
  if isOpen w then w
  else with_presenter (Presenter.switch_key (base pg) key) w.

(** The keydown listener of the dialog manager. *)
Definition dialog_keydown (key : string) (w : World) : World :=
  if String.eqb key "Escape" && overlay_open w then close w else w.

(** A keydown event: both listeners sit on [document], the presenter's was
    registered first. *)
Definition keydown (pg : Page) (key : string) (w : World) : World :=
  dialog_keydown key (handleKeydown pg key w).

(** State after the DOMContentLoaded handler. *)
Definition loaded (pg : Page) : World :=
  {| presenter := Presenter.constructor (base pg);
     overlay_open := false; dialog_title := ""; dialog_body := "";
     pending := [] |}.

(** The pending promises settle one after the other. *)
Definition settle_all (os : list Outcome) (w : World) : World :=
  fold_left (fun acc o => settle o acc) os w.

(** Every pending promise carries a rejection handler. *)
Definition handled (w : World) : Prop := Forall is_Some (pending w).

Definition is_plain (e : Dom.Element Role) : bool :=
  match Dom.role e with Plain => true | _ => false end.

Definition is_slide (e : Dom.Element Role) : bool :=
  match Dom.role e with Slide => true | _ => false end.

End Unified.

(* ===================================================================== *)
(** ** The split variant: ungated SlidePresenter, LectureNotesModal and
       DetailButtons *)
(* ===================================================================== *)

Module Split.

(** An element that can receive the class 'open': a [.notes-overlay], or
    whatever element a detail button names by id. *)
Record Openable := {
  el_id : string;            (* "" when the element has no id *)
  notes_overlay : bool;      (* it matches '.notes-overlay' *)
  notes_close : bool;        (* it contains a '.notes-close' element *)
  open_in_markup : bool      (* it carries 'open' when the page loads *)
}.

Record Page := {
  base : Presenter.Page;
  openables : list Openable;     (* document order *)
  lecture_notes_btn : bool;      (* querySelector('.lecture-notes-btn') *)
  detail_btns : list string      (* data-detail of each
                                    '.detail-btn[data-detail]' *)
}.

Record World := {
  presenter : Presenter.State;
  open_class : list bool;        (* per openable: classList has 'open' *)
  activeOverlay : option nat     (* DetailButtons.activeOverlay *)
}.

Definition with_presenter (f : Presenter.State -> Presenter.State) (w : World)
  : World :=
  {| presenter := f (presenter w); open_class := open_class w;
     activeOverlay := activeOverlay w |}.

Definition set_open_class (i : nat) (b : bool) (w : World) : World :=
  {| presenter := presenter w; open_class := <[i := b]> (open_class w);
     activeOverlay := activeOverlay w |}.

Definition set_activeOverlay (a : option nat) (w : World) : World :=
  {| presenter := presenter w; open_class := open_class w;
     activeOverlay := a |}.

(** Position of the first element that satisfies [p]. *)
Fixpoint find_index {A} (p : A -> bool) (l : list A) : option nat :=
  match l with
  | [] => None
  | x :: r => if p x then Some O else option_map S (find_index p r)
  end.

(** [document.getElementById(id)]. *)
Definition getElementById (pg : Page) (id : string) : option nat :=
  if String.eqb id "" then None
  else find_index (fun o => String.eqb (el_id o) id) (openables pg).

(** *** LectureNotesModal *)

Definition has_open (i : nat) (w : World) : bool :=
  match open_class w !! i with Some b => b | None => false end.

Module LectureNotesModal.

(** [this.overlay = document.querySelector('.notes-overlay')]. *)
Definition overlay (pg : Page) : option nat :=
  find_index notes_overlay (openables pg).

(** The constructor returns before any wiring unless both the overlay and
    the button exist. *)
Definition wired (pg : Page) : bool :=
  match LectureNotesModal.overlay pg with
  | Some _ => lecture_notes_btn pg
  | None => false
  end.

Definition isOpen (pg : Page) (w : World) : bool :=
  match LectureNotesModal.overlay pg with
  | Some i => has_open i w
  | None => false
  end.

Definition open (pg : Page) (w : World) : World :=
  match LectureNotesModal.overlay pg with
  | Some i => set_open_class i true w
  | None => w
  end.

Definition close (pg : Page) (w : World) : World :=
  match LectureNotesModal.overlay pg with
  | Some i => set_open_class i false w
  | None => w
  end.

End LectureNotesModal.

(** *** DetailButtons *)

Module DetailButtons.

Definition open (overlay : nat) (w : World) : World :=
  set_open_class overlay true (set_activeOverlay (Some overlay) w).

Definition close (w : World) : World :=
  match activeOverlay w with
  | Some i => set_activeOverlay None (set_open_class i false w)
  | None => w
  end.

End DetailButtons.

(** *** Click events *)

(** The elements the script holds a reference to, taken as distinct
    elements. *)
Inductive Role :=
| Plain
| Slide                  (* querySelector('.slide'), which has the listener *)
| LectureBtn             (* querySelector('.lecture-notes-btn') *)
| DetailBtn (k : nat)    (* entry k of the detail buttons *)
| OpenableEl (i : nat)   (* entry i of the openable elements *)
| NotesClose (i : nat).  (* openable i's querySelector('.notes-close') *)

Definition is_openable (i : nat) (e : Dom.Element Role) : bool :=
  match Dom.role e with OpenableEl j => Nat.eqb i j | _ => false end.

Definition is_notes_el (pg : Page) (i : nat) : bool :=
  match LectureNotesModal.overlay pg with Some j => Nat.eqb i j | None => false end.

Definition is_notes_overlay (pg : Page) (i : nat) : bool :=
  match openables pg !! i with Some o => notes_overlay o | None => false end.

Definition has_notes_close (pg : Page) (i : nat) : bool :=
  match openables pg !! i with Some o => notes_close o | None => false end.

(** The click listener of [.slide]: no look at any overlay. *)
Definition slide_click (pg : Page) (ev : Dom.Click Role) (w : World) : World :=
  if Dom.on_control ev then w
  else with_presenter (Presenter.next (base pg)) w.

(** The click listeners of openable [i], in registration order: the one of
    LectureNotesModal when [i] is its overlay, then the one of DetailButtons
    when [i] is a [.notes-overlay].  Each stops the propagation. *)
Definition overlay_click (pg : Page) (i : nat) (ev : Dom.Click Role)
    (w : World) : World * bool :=
  let by_notes := LectureNotesModal.wired pg && is_notes_el pg i in
  let by_detail := is_notes_overlay pg i in
  let w1 :=
    if by_notes && is_openable i (Dom.target ev)
    then LectureNotesModal.close pg w else w in
  let w2 :=
    if by_detail && is_openable i (Dom.target ev)
    then DetailButtons.close w1 else w1 in
  (w2, by_notes || by_detail).

(** The click listeners of the [.notes-close] element of openable [i]; none
    of them stops the propagation. *)
Definition close_click (pg : Page) (i : nat) (w : World) : World :=
  if has_notes_close pg i then
    let w1 :=
      if LectureNotesModal.wired pg && is_notes_el pg i
      then LectureNotesModal.close pg w else w in
    if is_notes_overlay pg i then DetailButtons.close w1 else w1
  else w.

Definition detail_click (pg : Page) (id : string) (w : World) : World :=
  match getElementById pg id with
  | Some overlay => DetailButtons.open overlay w
  | None => w
  end.

Definition listeners (pg : Page) (ev : Dom.Click Role) (e : Dom.Element Role)
    (w : World) : World * bool :=
  match Dom.role e with
  | Plain => (w, false)
  | Slide => (slide_click pg ev w, false)
  | LectureBtn =>
      (if LectureNotesModal.wired pg then LectureNotesModal.open pg w else w, false)
  | DetailBtn k =>
      match detail_btns pg !! k with
      | Some id => (detail_click pg id w, false)
      | None => (w, false)
      end
  | OpenableEl i => overlay_click pg i ev w
  | NotesClose i => (close_click pg i w, false)
  end.

Definition click (pg : Page) (ev : Dom.Click Role) (w : World) : World :=
  Dom.bubble (listeners pg ev) (Dom.path ev) w.

(** *** Keydown events *)

(** [handleKeydown(e)] of the presenter: the bare switch. *)
Definition handleKeydown (pg : Page) (key : string) (w : World) : World :=
  with_presenter (Presenter.switch_key (base pg) key) w.

(** The capture listener of LectureNotesModal; the flag reports
    [stopImmediatePropagation]. *)
Definition notes_keydown (pg : Page) (key : string) (w : World) : World * bool :=
  if LectureNotesModal.wired pg && String.eqb key "Escape"
     && LectureNotesModal.isOpen pg w
  then (LectureNotesModal.close pg w, true)
  else (w, false).

(** The capture listener of DetailButtons. *)
Definition detail_keydown (key : string) (w : World) : World * bool :=
  match activeOverlay w with
  | Some _ =>
      if String.eqb key "Escape" then (DetailButtons.close w, true) else (w, false)
  | None => (w, false)
  end.

(** A keydown event: the two capture listeners of [document] in registration
    order, then the presenter's listener of the bubbling phase. *)
Definition keydown (pg : Page) (key : string) (w : World) : World :=
  let '(w1, stop1) := notes_keydown pg key w in
  if stop1 then w1
  else
    let '(w2, stop2) := detail_keydown key w1 in
    if stop2 then w2 else handleKeydown pg key w2.

(** State after the DOMContentLoaded handler. *)
Definition loaded (pg : Page) : World :=
  {| presenter := Presenter.constructor (base pg);
     open_class := map open_in_markup (openables pg);
     activeOverlay := None |}.

Definition is_plain (e : Dom.Element Role) : bool :=
  match Dom.role e with Plain => true | _ => false end.

Definition is_slide (e : Dom.Element Role) : bool :=
  match Dom.role e with Slide => true | _ => false end.

(** An overlay that one of the two controllers tracks is open. *)
Definition tracked_open (pg : Page) (w : World) : bool :=
  LectureNotesModal.wired pg && LectureNotesModal.isOpen pg w
  || bool_decide (is_Some (activeOverlay w)).

End Split.

(* ===================================================================== *)
(** ** The two variants side by side *)
(* ===================================================================== *)

Module Contract.

(** What a user can do to the page, whichever variant drives it. *)
Inductive Input :=
| ClickTrigger          (* click the button that opens the dialog *)
| ClickClose            (* click the close control of the dialog *)
| ClickOutside          (* click the overlay outside of the dialog content *)
| ClickSlide            (* click the slide surface *)
| Key (key : string).   (* press a key *)

(** The inputs that belong to the dialog: its three clicks and Escape. *)
Definition dialog_input (i : Input) : bool :=
  match i with
  | ClickTrigger | ClickClose | ClickOutside => true
  | ClickSlide => false
  | Key key => String.eqb key "Escape"
  end.

(** Where the four clicks land on a page: target and ancestors of each. *)
Record Layout (R : Type) := {
  trigger : Dom.Click R;
  close_control : Dom.Click R;
  outside : Dom.Click R;
  surface : Dom.Click R
}.
Arguments trigger {R} _.
Arguments close_control {R} _.
Arguments outside {R} _.
Arguments surface {R} _.

(** What is compared: is the dialog open, and the presenter with the page
    and window state it writes. *)
Definition Obs : Type := bool * Presenter.State.

(** A click on the slide surface: the target is no control, and the path
    holds the [.slide] element once among elements without listeners. *)
Definition on_surface {R} (is_plain is_slide : Dom.Element R -> bool)
    (ev : Dom.Click R) : Prop :=
  Dom.on_control ev = false /\
  exists inner sl outer,
    Dom.path ev = (inner ++ sl :: outer)%list /\
    forallb is_plain inner = true /\ is_slide sl = true /\
    forallb is_plain outer = true.

(** *** The unified variant *)

Definition unified_step (pg : Unified.Page) (lay : Layout Unified.Role)
    (i : Input) (w : Unified.World) : Unified.World :=
  match i with
  | ClickTrigger => Unified.click pg (trigger lay) w
  | ClickClose => Unified.click pg (close_control lay) w
  | ClickOutside => Unified.click pg (outside lay) w
  | ClickSlide => Unified.click pg (surface lay) w
  | Key key => Unified.keydown pg key w
  end.

Definition unified_obs (w : Unified.World) : Obs :=
  (Unified.isOpen w, Unified.presenter w).

(** The observations after each input. *)
Fixpoint unified_trace (pg : Unified.Page) (lay : Layout Unified.Role)
    (ins : list Input) (w : Unified.World) : list Obs :=
  match ins with
  | [] => []
  | i :: rest =>
      let w' := unified_step pg lay i w in
      unified_obs w' :: unified_trace pg lay rest w'
  end.

(** While the dialog is open only dialog inputs arrive. *)
Fixpoint gated (pg : Unified.Page) (lay : Layout Unified.Role)
    (ins : list Input) (w : Unified.World) : bool :=
  match ins with
  | [] => true
  | i :: rest =>
      (negb (Unified.isOpen w) || dialog_input i)
      && gated pg lay rest (unified_step pg lay i w)
  end.

(** The layout of a page of the unified variant: the trigger is an info
    button whose dialog exists, the close control is the close button, the
    outside click lands on the overlay itself. *)
Definition unified_layout (pg : Unified.Page) (lay : Layout Unified.Role)
  : Prop :=
  (exists k btn t,
     Dom.role (Dom.target (trigger lay)) = Unified.InfoBtnEl k /\
     Unified.info_btns pg !! k = Some btn /\
     Unified.getElementById pg (Unified.to_id (Unified.data_dialog btn))
       = Some t) /\
  Dom.role (Dom.target (close_control lay)) = Unified.CloseBtn /\
  Dom.role (Dom.target (outside lay)) = Unified.Overlay /\
  on_surface Unified.is_plain Unified.is_slide (surface lay).

(** *** The split variant *)

(** Which of the two controllers serves the dialog. *)
Inductive Controller :=
| Notes               (* LectureNotesModal and its button *)
| Detail (k : nat).   (* DetailButtons and detail button k *)

Definition split_step (pg : Split.Page) (lay : Layout Split.Role)
    (i : Input) (w : Split.World) : Split.World :=
  match i with
  | ClickTrigger => Split.click pg (trigger lay) w
  | ClickClose => Split.click pg (close_control lay) w
  | ClickOutside => Split.click pg (outside lay) w
  | ClickSlide => Split.click pg (surface lay) w
  | Key key => Split.keydown pg key w
  end.

(** The dialog is openable [ov]. *)
Definition split_obs (ov : nat) (w : Split.World) : Obs :=
  (Split.has_open ov w, Split.presenter w).

Fixpoint split_trace (pg : Split.Page) (lay : Layout Split.Role) (ov : nat)
    (ins : list Input) (w : Split.World) : list Obs :=
  match ins with
  | [] => []
  | i :: rest =>
      let w' := split_step pg lay i w in
      split_obs ov w' :: split_trace pg lay ov rest w'
  end.

(** The controller [ctl] is wired to overlay [ov]: LectureNotesModal found
    it and its button; or detail button [k] names it, it is a
    [.notes-overlay], and it is not the overlay of a wired
    LectureNotesModal.  Either way it holds a [.notes-close] element. *)
Definition split_wiring (pg : Split.Page) (ctl : Controller) (ov : nat)
  : Prop :=
  Split.has_notes_close pg ov = true /\
  match ctl with
  | Notes =>
      Split.LectureNotesModal.wired pg = true /\
      Split.LectureNotesModal.overlay pg = Some ov
  | Detail k =>
      (exists id, Split.detail_btns pg !! k = Some id /\
                  Split.getElementById pg id = Some ov) /\
      Split.is_notes_overlay pg ov = true /\
      Split.LectureNotesModal.wired pg && Split.is_notes_el pg ov = false
  end.

(** The layout of a page of the split variant: the trigger is the button of
    the controller, a control in the eyes of the slide's click handler, with
    no listener between it and the document other than the slide's; the close
    control is the overlay's [.notes-close], directly inside the overlay; the
    outside click lands on the overlay itself. *)
Definition split_layout (ctl : Controller) (ov : nat)
    (lay : Layout Split.Role) : Prop :=
  (Dom.role (Dom.target (trigger lay))
     = match ctl with Notes => Split.LectureBtn | Detail k => Split.DetailBtn k end /\
   Dom.on_control (trigger lay) = true /\
   forallb (fun e => Split.is_plain e || Split.is_slide e)
           (Dom.ancestors (trigger lay)) = true) /\
  (Dom.role (Dom.target (close_control lay)) = Split.NotesClose ov /\
   exists inner el outer,
     Dom.ancestors (close_control lay) = (inner ++ el :: outer)%list /\
     forallb Split.is_plain inner = true /\
     Dom.role el = Split.OpenableEl ov) /\
  Dom.role (Dom.target (outside lay)) = Split.OpenableEl ov /\
  on_surface Split.is_plain Split.is_slide (surface lay).

(** The states of the two variants that correspond: same presenter, same
    open flag, and the bookkeeping of the split controllers in step with the
    flag. *)
Definition related (pg : Split.Page) (ctl : Controller) (ov : nat)
    (u : Unified.World) (s : Split.World) : Prop :=
  Unified.presenter u = Split.presenter s /\
  Unified.overlay_open u = Split.has_open ov s /\
  (ov < length (Split.open_class s))%nat /\
  match ctl with
  | Notes => Split.activeOverlay s = None
  | Detail _ =>
      Split.activeOverlay s = (if Split.has_open ov s then Some ov else None) /\
      Split.LectureNotesModal.wired pg && Split.LectureNotesModal.isOpen pg s = false
  end.

(** What dismissing the dialog does to the split state: the close of the
    controller that serves the dialog, followed for the lecture notes by the
    close of DetailButtons, which listens on the same overlay. *)
Definition dismissed (ctl : Controller) (ov : nat) (s : Split.World)
  : Split.World :=
  match ctl with
  | Notes => Split.DetailButtons.close (Split.set_open_class ov false s)
  | Detail _ => Split.DetailButtons.close s
  end.

End Contract.

(* ===================================================================== *)
(** ** Concrete pages used as test inputs *)
(* ===================================================================== *)

Module Samples.

Definition dataset (total current : option string) : Presenter.Dataset :=
  {| Presenter.data_total_slides := total;
     Presenter.data_current_slide := current;
     Presenter.data_next_slide := None;
     Presenter.data_prev_slide := None |}.

(** A page of a deck: [.slide-container] with both counters, a [.slide], a
    [#slide-number] and the given fragments. *)
Definition deck_page (total current : string) (frags : list bool)
  : Presenter.Page :=
  {| Presenter.slide_container := Some (dataset (Some total) (Some current));
     Presenter.fragment_els := frags;
     Presenter.slide_number_el := Some "";
     Presenter.slide_el := true |}.

(** A page with no [.slide-container] at all. *)
Definition bare_page : Presenter.Page :=
  {| Presenter.slide_container := None;
     Presenter.fragment_els := [];
     Presenter.slide_number_el := Some "";
     Presenter.slide_el := true |}.

(** A container that gives the current slide only. *)
Definition untotalled_page (current : string) : Presenter.Page :=
  {| Presenter.slide_container := Some (dataset None (Some current));
     Presenter.fragment_els := [];
     Presenter.slide_number_el := Some "";
     Presenter.slide_el := true |}.

(** A container with a custom next and a custom previous target. *)
Definition linked_page : Presenter.Page :=
  {| Presenter.slide_container :=
       Some {| Presenter.data_total_slides := Some "10";
               Presenter.data_current_slide := Some "4";
               Presenter.data_next_slide := Some "appendix.html";
               Presenter.data_prev_slide := Some "intro.html" |};
     Presenter.fragment_els := [];
     Presenter.slide_number_el := Some "";
     Presenter.slide_el := true |}.

(** *** A page of the unified variant *)

Definition el {R} (tag : string) (cls : list string) (r : R) : Dom.Element R :=
  {| Dom.tagName := tag; Dom.classes := cls; Dom.role := r |}.

Definition info_page : Unified.Page :=
  {| Unified.base := deck_page "10" "4" [false; false];
     Unified.info_btns :=
       [ {| Unified.data_dialog := Some "notes"; Unified.textContent := "Notes" |};
         {| Unified.data_dialog := Some "missing"; Unified.textContent := "?" |} ];
     Unified.elements :=
       [ {| Unified.el_id := "notes";
            Unified.data_title := Some "Lecture notes";
            Unified.innerHTML := "<p>Parallel trends</p>" |} ];
     Unified.MathJax := true |}.

(** The elements above the slide content, innermost first. *)
Definition info_shell : list (Dom.Element Unified.Role) :=
  [ el "DIV" ["slide"] Unified.Slide;
    el "DIV" ["slide-container"] Unified.Plain;
    el "BODY" [] Unified.Plain;
    el "HTML" [] Unified.Plain ].

Definition info_overlay : Dom.Element Unified.Role :=
  el "DIV" ["info-dialog-overlay"] Unified.Overlay.

(** A click on info button [k], which sits inside the slide. *)
Definition info_btn_click (k : nat) : Dom.Click Unified.Role :=
  {| Dom.target := el "BUTTON" ["info-btn"] (Unified.InfoBtnEl k);
     Dom.ancestors := info_shell |}.

Definition info_layout : Contract.Layout Unified.Role :=
  {| Contract.trigger := info_btn_click 0;
     Contract.close_control :=
       {| Dom.target := el "BUTTON" ["close-btn"] Unified.CloseBtn;
          Dom.ancestors :=
            [ el "DIV" ["info-dialog"] Unified.Plain; info_overlay;
              el "BODY" [] Unified.Plain; el "HTML" [] Unified.Plain ] |};
     Contract.outside :=
       {| Dom.target := info_overlay;
          Dom.ancestors :=
            [ el "BODY" [] Unified.Plain; el "HTML" [] Unified.Plain ] |};
     Contract.surface :=
       {| Dom.target := el "P" [] Unified.Plain;
          Dom.ancestors := info_shell |} |}.

(** *** A page of the split variant *)

Definition notes_page : Split.Page :=
  {| Split.base := deck_page "10" "4" [false; false];
     Split.openables :=
       [ {| Split.el_id := "notes"; Split.notes_overlay := true;
            Split.notes_close := true; Split.open_in_markup := false |};
         {| Split.el_id := "detail-1"; Split.notes_overlay := true;
            Split.notes_close := true; Split.open_in_markup := false |} ];
     Split.lecture_notes_btn := true;
     Split.detail_btns := ["detail-1"] |}.

Definition notes_shell : list (Dom.Element Split.Role) :=
  [ el "DIV" ["slide"] Split.Slide;
    el "DIV" ["slide-container"] Split.Plain;
    el "BODY" [] Split.Plain;
    el "HTML" [] Split.Plain ].

(** The layout around openable [ov], opened by the element [btn]. *)
Definition split_layout_of (btn : Dom.Element Split.Role) (ov : nat)
  : Contract.Layout Split.Role :=
  {| Contract.trigger := {| Dom.target := btn; Dom.ancestors := notes_shell |};
     Contract.close_control :=
       {| Dom.target := el "BUTTON" ["notes-close"] (Split.NotesClose ov);
          Dom.ancestors :=
            [ el "DIV" ["notes-content"] Split.Plain;
              el "DIV" ["notes-overlay"] (Split.OpenableEl ov);
              el "BODY" [] Split.Plain; el "HTML" [] Split.Plain ] |};
     Contract.outside :=
       {| Dom.target := el "DIV" ["notes-overlay"] (Split.OpenableEl ov);
          Dom.ancestors :=
            [ el "BODY" [] Split.Plain; el "HTML" [] Split.Plain ] |};
     Contract.surface :=
       {| Dom.target := el "P" [] Split.Plain;
          Dom.ancestors := notes_shell |} |}.

Definition notes_layout : Contract.Layout Split.Role :=
  split_layout_of (el "BUTTON" ["lecture-notes-btn"] Split.LectureBtn) 0.

Definition detail_layout : Contract.Layout Split.Role :=
  split_layout_of (el "BUTTON" ["detail-btn"] (Split.DetailBtn 0)) 1.

End Samples.

From Stdlib Require DecimalPos DecimalZ.

(* ===================================================================== *)
(** ** Whole sessions: any events, in any order *)
(* ===================================================================== *)

Module Session.

(** An event on a page of the unified variant: a click somewhere, a key, or
    the end of the oldest pending typesetting promise. *)
Inductive UEvent :=
| UClick (ev : Dom.Click Unified.Role)
| UKey (key : string)
| USettle (o : Unified.Outcome).

Definition ustep (pg : Unified.Page) (e : UEvent) (w : Unified.World)
  : Unified.World :=
  match e with
  | UClick ev => Unified.click pg ev w
  | UKey key => Unified.keydown pg key w
  | USettle o => Unified.settle o w
  end.

Definition urun (pg : Unified.Page) (es : list UEvent) (w : Unified.World)
  : Unified.World :=
  fold_left (fun acc e => ustep pg e acc) es w.

(** An event on a page of the split variant. *)
Inductive SEvent :=
| SClick (ev : Dom.Click Split.Role)
| SKey (key : string).

Definition sstep (pg : Split.Page) (e : SEvent) (w : Split.World)
  : Split.World :=
  match e with
  | SClick ev => Split.click pg ev w
  | SKey key => Split.keydown pg key w
  end.

Definition srun (pg : Split.Page) (es : list SEvent) (w : Split.World)
  : Split.World :=
  fold_left (fun acc e => sstep pg e acc) es w.

(** The labels of the [switch] in [handleKeydown]. *)
Definition handled_keys : list string :=
  [ "ArrowRight"; " "; "Enter"; "ArrowLeft"; "Backspace";
    "Home"; "End"; "Escape"; "f" ].

(** The selector test behind the slide's click guard: the element is a link,
    a button, or the home button. *)
Definition is_control {R} (e : Dom.Element R) : bool :=
  Dom.has_tag "A" e || Dom.has_tag "BUTTON" e || Dom.has_class "home-btn" e.

(** The on-page indicator, when the page has one, shows
    [`${currentSlide} / ${totalSlides}`]. *)
Definition indicator_current (s : Presenter.State) : Prop :=
  match Presenter.slide_number s with
  | Some t =>
      t = JS.String_ (Presenter.currentSlide s) ++ " / "
          ++ JS.String_ (Presenter.totalSlides s)
  | None => True
  end.

(** The fragments up to the fragment index are visible and the ones past it
    are hidden. *)
Definition revealed_prefix (s : Presenter.State) : Prop :=
  forall (j : nat) (b : bool),
    Presenter.fragments s !! j = Some b ->
    b = bool_decide (Z.of_nat j <= Presenter.currentFragmentIndex s).

(** The places a key can send the browser to: the index page, a custom
    target of the slide container, or the file of a slide of the deck. *)
Definition reachable_target (pg : Presenter.Page) (s : Presenter.State)
    (url : string) : Prop :=
  url = "index.html" \/
  Presenter.custom_target pg Presenter.data_next_slide = Some url \/
  Presenter.custom_target pg Presenter.data_prev_slide = Some url \/
  exists n, 1 <= n <= Presenter.totalSlides s /\ url = Presenter.slide_file n.

(** What a session never disturbs: the fragment index is in range, nothing
    was thrown, the slide counters and the number of fragments are the ones
    the constructor found, and the indicator shows the counters. *)
Definition steady (pg : Presenter.Page) (s : Presenter.State) : Prop :=
  Presenter.inv s /\
  Presenter.uncaught s = [] /\
  Presenter.totalSlides s = Presenter.totalSlides (Presenter.constructor pg) /\
  Presenter.currentSlide s = Presenter.currentSlide (Presenter.constructor pg) /\
  length (Presenter.fragments s) = length (Presenter.fragment_els pg) /\
  indicator_current s.

(** [steady], with the visible fragments forming the prefix up to the
    fragment index. *)
Definition tidy (pg : Presenter.Page) (s : Presenter.State) : Prop :=
  steady pg s /\ revealed_prefix s.

(** [steady], with a navigation log that holds reachable targets only. *)
Definition on_course (pg : Presenter.Page) (s : Presenter.State) : Prop :=
  steady pg s /\
  Forall (reachable_target pg (Presenter.constructor pg)) (Presenter.href s).

Definition is_info_btn (e : Dom.Element Unified.Role) : bool :=
  match Dom.role e with Unified.InfoBtnEl _ => true | _ => false end.

(** An element of the split page that sits inside an overlay: no listener,
    or a [.notes-close]. *)
Definition inside_overlay (e : Dom.Element Split.Role) : bool :=
  match Dom.role e with
  | Split.Plain | Split.NotesClose _ => true
  | _ => false
  end.

End Session.

(* ===================================================================== *)
(** ** Further pages of the split variant *)
(* ===================================================================== *)

Module Cases.

(** A page whose detail button names the lecture-notes overlay, and a second
    detail button with an overlay of its own. *)
Definition shared_page : Split.Page :=
  {| Split.base := Samples.deck_page "10" "4" [false; false];
     Split.openables :=
       [ {| Split.el_id := "notes"; Split.notes_overlay := true;
            Split.notes_close := true; Split.open_in_markup := false |};
         {| Split.el_id := "detail-1"; Split.notes_overlay := true;
            Split.notes_close := true; Split.open_in_markup := false |} ];
     Split.lecture_notes_btn := true;
     Split.detail_btns := ["notes"; "detail-1"] |}.

(** A click on detail button [k], a button inside the slide. *)
Definition detail_btn_click (k : nat) : Dom.Click Split.Role :=
  {| Dom.target := Samples.el "BUTTON" ["detail-btn"] (Split.DetailBtn k);
     Dom.ancestors := Samples.notes_shell |}.

(** A page with a notes overlay, open in the markup, and no lecture-notes
    button. *)
Definition buttonless_page : Split.Page :=
  {| Split.base := Samples.deck_page "10" "4" [];
     Split.openables :=
       [ {| Split.el_id := "notes"; Split.notes_overlay := true;
            Split.notes_close := true; Split.open_in_markup := true |} ];
     Split.lecture_notes_btn := false;
     Split.detail_btns := [] |}.

(** A click on a lecture-notes trigger that is a [DIV] inside the slide. *)
Definition div_trigger_click : Dom.Click Split.Role :=
  {| Dom.target := Samples.el "DIV" ["lecture-notes-btn"] Split.LectureBtn;
     Dom.ancestors := Samples.notes_shell |}.

(** The sample page with a detail overlay that lacks the class
    'notes-overlay'. *)
Definition classless_page : Split.Page :=
  {| Split.base := Samples.deck_page "10" "4" [false; false];
     Split.openables :=
       [ {| Split.el_id := "notes"; Split.notes_overlay := true;
            Split.notes_close := true; Split.open_in_markup := false |};
         {| Split.el_id := "detail-1"; Split.notes_overlay := false;
            Split.notes_close := true; Split.open_in_markup := false |} ];
     Split.lecture_notes_btn := true;
     Split.detail_btns := ["detail-1"] |}.

(** The sample page with its lecture-notes overlay open in the markup. *)
Definition open_markup_page : Split.Page :=
  {| Split.base := Samples.deck_page "10" "4" [false; false];
     Split.openables :=
       [ {| Split.el_id := "notes"; Split.notes_overlay := true;
            Split.notes_close := true; Split.open_in_markup := true |};
         {| Split.el_id := "detail-1"; Split.notes_overlay := true;
            Split.notes_close := true; Split.open_in_markup := false |} ];
     Split.lecture_notes_btn := true;
     Split.detail_btns := ["detail-1"] |}.

(** Pages of both variants without a slide container. *)
Definition bare_info_page : Unified.Page :=
  {| Unified.base := Samples.bare_page;
     Unified.info_btns := [];
     Unified.elements := [];
     Unified.MathJax := false |}.

Definition bare_notes_page : Split.Page :=
  {| Split.base := Samples.bare_page;
     Split.openables := [];
     Split.lecture_notes_btn := false;
     Split.detail_btns := [] |}.

End Cases.

(* ===================================================================== *)
(** ** Facts about the built-ins *)
(* ===================================================================== *)

Example parseInt_12 : JS.parseInt (Some "12") = Some 12.
Proof. reflexivity. Qed.

Example parseInt_ws_sign : JS.parseInt (Some "  -7px") = Some (-7).
Proof. reflexivity. Qed.

Example parseInt_hex : JS.parseInt (Some "0x1f") = Some 31.
Proof. reflexivity. Qed.

Example parseInt_nan : JS.parseInt (Some "abc") = None.
Proof. reflexivity. Qed.

Example parseInt_undefined : JS.parseInt None = None.
Proof. reflexivity. Qed.

Example padStart_3 : JS.padStart 2 "0" (JS.String_ 3) = "03".
Proof. reflexivity. Qed.

Example padStart_12 : JS.padStart 2 "0" (JS.String_ 12) = "12".
Proof. reflexivity. Qed.

Lemma string_length_app (a b : string) :
  String.length (a ++ b) = (String.length a + String.length b)%nat.
Proof. induction a as [|c a IH]; simpl; [reflexivity | now rewrite IH]. Qed.

Lemma cycle_length (n : nat) (c : ascii) (r cur : string) :
  String.length (JS.cycle n (String c r) cur) = n.
Proof.
  revert cur. induction n as [|n IH]; intros cur; simpl; [reflexivity|].
  destruct cur; simpl; now rewrite IH.
Qed.

(** [padStart] never shortens, and reaches the target width when the filler
    is not empty. *)
Lemma padStart_length (target : nat) (c : ascii) (r s : string) :
  String.length (JS.padStart target (String c r) s)
  = Nat.max target (String.length s).
Proof.
  unfold JS.padStart.
  destruct (Nat.leb_spec target (String.length s)) as [H|H]; [lia|].
  rewrite string_length_app, cycle_length. lia.
Qed.

(** [padStart] only adds to the left. *)
Lemma padStart_suffix (target : nat) (fill s : string) :
  exists pre, JS.padStart target fill s = pre ++ s.
Proof.
  unfold JS.padStart. destruct (target <=? String.length s)%nat.
  - exists "". reflexivity.
  - eexists. reflexivity.
Qed.

Lemma index_some {A} (a : list A) (i : Z) :
  0 <= i < Z.of_nat (length a) -> exists x, JS.index a i = Some x.
Proof.
  intros H. unfold JS.index.
  destruct (Z.ltb_spec i 0) as [Hn|Hn]; [lia|].
  destruct (lookup_lt_is_Some_2 a (Z.to_nat i)) as [x Hx]; [lia|].
  exists x. exact Hx.
Qed.

Lemma two_wide_below_100 : forallb JS.two_wide (seq 0 100) = true.
Proof. vm_compute. reflexivity. Qed.

Lemma padded_width_below_100 (n : Z) :
  0 <= n < 100 -> String.length (JS.padStart 2 "0" (JS.String_ n)) = 2%nat.
Proof.
  intros H.
  pose proof (proj1 (forallb_forall JS.two_wide (seq 0 100)) two_wide_below_100
                (Z.to_nat n)) as Hw.
  unfold JS.two_wide in Hw. rewrite Z2Nat.id in Hw by lia.
  apply Nat.eqb_eq, Hw, in_seq. lia.
Qed.

(* ===================================================================== *)
(** ** SlidePresenter: initialisation and goToSlide *)
(* ===================================================================== *)

Section PresenterFacts.

Import Presenter.

Lemma updateNav_fields (s : State) :
  currentFragmentIndex (updateNav s) = currentFragmentIndex s /\
  fragments (updateNav s) = fragments s /\
  href (updateNav s) = href s /\
  totalSlides (updateNav s) = totalSlides s /\
  currentSlide (updateNav s) = currentSlide s /\
  uncaught (updateNav s) = uncaught s.
Proof. unfold updateNav. destruct (slide_number s); simpl; auto 10. Qed.

Lemma goToSlide_decide (n : Z) (s : State) :
  goToSlide n s =
  if decide (1 <= n <= totalSlides s) then assign_href (slide_file n) s else s.
Proof.
  unfold goToSlide.
  destruct (Z.leb_spec 1 n), (Z.leb_spec n (totalSlides s)); simpl;
    destruct (decide _); try reflexivity; lia.
Qed.

Lemma cons_neq {A} (x : A) (l : list A) : x :: l <> l.
Proof.
  intros H. apply (f_equal (@length A)) in H. simpl in H. lia.
Qed.

(** The configured custom target: the container exists and the attribute is
    a non-empty string. *)
Lemma custom_target_some (pg : Page) (key : Dataset -> option string)
    (url : string) :
  custom_target pg key = Some url <->
  exists c, slide_container pg = Some c /\ key c = Some url /\ url <> "".
Proof.
  unfold custom_target. split.
  - destruct (slide_container pg) as [c|]; [|discriminate].
    destruct (key c) as [[|a u]|] eqn:K; simpl; try discriminate.
    intros [= <-]. exists c. repeat split; [exact K | discriminate].
  - intros (c & -> & K & Hne). rewrite K.
    destruct url; [congruence | reflexivity].
Qed.

End PresenterFacts.

(** C6, as the code has it.  After [new SlidePresenter()], [currentSlide] is
    the parsed current-slide attribute when that is a non-zero number and 1
    otherwise, also on a page without a slide container.  [totalSlides] is the
    parsed total-slide attribute, or 1, when the slide container exists; on a
    page without a slide container it keeps the 0 of the field initialiser. *)
Theorem init_slide_counters (pg : Presenter.Page) :
  Presenter.totalSlides (Presenter.constructor pg) =
    match Presenter.slide_container pg with
    | Some c => JS.or_number (JS.parseInt (Presenter.data_total_slides c)) 1
    | None => 0
    end
  /\
  Presenter.currentSlide (Presenter.constructor pg) =
    match Presenter.slide_container pg with
    | Some c => JS.or_number (JS.parseInt (Presenter.data_current_slide c)) 1
    | None => 1
    end.
Proof.
  unfold Presenter.constructor, Presenter.init.
  destruct (Presenter.slide_container pg) as [c|];
    destruct (Presenter.slide_el pg); simpl;
    match goal with
    | |- context [Presenter.updateNav ?s] =>
        destruct (updateNav_fields s) as (_ & _ & _ & -> & -> & _)
    end; simpl; split; reflexivity.
Qed.

(** C6 as stated fails on a page without a slide container: there is no
    attribute to parse, so the claim gives [totalSlides] its default 1, and
    the code leaves it at 0. *)
Lemma init_total_without_container :
  Presenter.slide_container Samples.bare_page = None /\
  Presenter.totalSlides (Presenter.constructor Samples.bare_page) <> 1.
Proof. split; [reflexivity | vm_compute; discriminate]. Qed.

(** Initialisation on concrete markup. *)
Example init_deck :
  let s := Presenter.constructor (Samples.deck_page "10" "4" [false]) in
  (Presenter.totalSlides s, Presenter.currentSlide s,
   Presenter.currentFragmentIndex s, Presenter.slide_number s)
  = (10, 4, -1, Some "4 / 10").
Proof. reflexivity. Qed.

Example init_unparsable :
  let s := Presenter.constructor (Samples.deck_page "ten" "" []) in
  (Presenter.totalSlides s, Presenter.currentSlide s) = (1, 1).
Proof. reflexivity. Qed.

Example init_zero :
  let s := Presenter.constructor (Samples.deck_page "0" "0" []) in
  (Presenter.totalSlides s, Presenter.currentSlide s) = (1, 1).
Proof. reflexivity. Qed.

Example init_bare :
  let s := Presenter.constructor Samples.bare_page in
  (Presenter.totalSlides s, Presenter.currentSlide s) = (0, 1).
Proof. reflexivity. Qed.

(** C4, as the code has it.  [goToSlide(n)] assigns [window.location.href]
    exactly when [1 <= n <= totalSlides], and is the identity on the whole
    state otherwise.  The target is ['slide-'], the decimal slide number
    padded on the left with ['0'] to at least two characters, and ['.html'];
    the padded number has exactly two characters up to slide 99. *)
Theorem goToSlide_navigates (n : Z) (s : Presenter.State) :
  (Presenter.goToSlide n s <> s <-> 1 <= n <= Presenter.totalSlides s)
  /\ (1 <= n <= Presenter.totalSlides s ->
      Presenter.goToSlide n s
      = Presenter.assign_href
          ("slide-" ++ JS.padStart 2 "0" (JS.String_ n) ++ ".html") s)
  /\ (~ 1 <= n <= Presenter.totalSlides s -> Presenter.goToSlide n s = s)
  /\ (2 <= String.length (JS.padStart 2 "0" (JS.String_ n)))%nat
  /\ (exists zeros, JS.padStart 2 "0" (JS.String_ n) = zeros ++ JS.String_ n)
  /\ (0 <= n < 100 -> String.length (JS.padStart 2 "0" (JS.String_ n)) = 2%nat).
Proof.
  rewrite goToSlide_decide.
  split; [|split; [|split; [|split; [|split]]]].
  - destruct (decide _) as [H|H]; [|tauto].
    split; [intros _; exact H|]. intros _.
    destruct s; unfold Presenter.assign_href; simpl. intros [= E].
    now apply cons_neq in E.
  - destruct (decide _) as [H|H]; [reflexivity | tauto].
  - destruct (decide _) as [H|H]; [tauto | reflexivity].
  - rewrite padStart_length. lia.
  - apply padStart_suffix.
  - apply padded_width_below_100.
Qed.

(** [goToSlide(3)] of a deck of five slides. *)
Lemma goToSlide_navigates_witness :
  let s := Presenter.constructor (Samples.deck_page "5" "1" []) in
  1 <= 3 <= Presenter.totalSlides s /\
  Presenter.href (Presenter.goToSlide 3 s) = ["slide-03.html"] /\
  Presenter.goToSlide 0 s = s /\ Presenter.goToSlide 6 s = s /\
  String.length (JS.padStart 2 "0" (JS.String_ 3)) = 2%nat.
Proof.
  intros s.
  assert (H3 : 1 <= 3 <= Presenter.totalSlides s) by (vm_compute; split; discriminate).
  assert (H0 : ~ 1 <= 0 <= Presenter.totalSlides s) by lia.
  assert (H6 : ~ 1 <= 6 <= Presenter.totalSlides s)
    by (vm_compute; intros [_ H]; apply H; reflexivity).
  split; [exact H3|].
  split; [rewrite (proj1 (proj2 (goToSlide_navigates 3 s)) H3); reflexivity|].
  split; [exact (proj1 (proj2 (proj2 (goToSlide_navigates 0 s))) H0)|].
  split; [exact (proj1 (proj2 (proj2 (goToSlide_navigates 6 s))) H6)|].
  apply (goToSlide_navigates 3 s). lia.
Defined.

(** C4 as stated fails from slide 100 on: [padStart(2, '0')] pads to at least
    two characters, so the file of slide 100 carries three digits. *)
Lemma goToSlide_three_digits :
  let s := Presenter.constructor (Samples.deck_page "100" "99" []) in
  1 <= 100 <= Presenter.totalSlides s /\
  Presenter.href (Presenter.goToSlide 100 s) = ["slide-100.html"] /\
  String.length (JS.padStart 2 "0" (JS.String_ 100)) <> 2%nat.
Proof.
  vm_compute. repeat split; discriminate.
Qed.

(* ===================================================================== *)
(** ** SlidePresenter: next() and prev() *)
(* ===================================================================== *)

Section NextPrev.

Import Presenter.

Variable pg : Page.

(** The three branches of [next()]. *)
Lemma next_reveal (s : State) :
  -1 <= currentFragmentIndex s < length_ s - 1 ->
  next pg s =
  updateNav
    (set_fragments (<[Z.to_nat (currentFragmentIndex s + 1) := true]> (fragments s))
       (set_currentFragmentIndex (currentFragmentIndex s + 1) s)).
Proof.
  intros H. unfold next.
  destruct (Z.ltb_spec (currentFragmentIndex s) (length_ s - 1)) as [_|?]; [|lia].
  cbn [currentFragmentIndex fragments set_currentFragmentIndex].
  destruct (index_some (fragments s) (currentFragmentIndex s + 1)) as [x ->];
    [unfold length_ in H; lia | reflexivity].
Qed.

Lemma next_custom (s : State) (url : string) :
  length_ s - 1 <= currentFragmentIndex s ->
  custom_target pg data_next_slide = Some url ->
  next pg s = assign_href url s.
Proof.
  intros H C. unfold next.
  destruct (Z.ltb_spec (currentFragmentIndex s) (length_ s - 1)); [lia|].
  now rewrite C.
Qed.

Lemma next_numeric (s : State) :
  length_ s - 1 <= currentFragmentIndex s ->
  custom_target pg data_next_slide = None ->
  next pg s =
  updateNav (if currentSlide s <? totalSlides s
             then goToSlide (currentSlide s + 1) s else s).
Proof.
  intros H C. unfold next.
  destruct (Z.ltb_spec (currentFragmentIndex s) (length_ s - 1)); [lia|].
  now rewrite C.
Qed.

(** The three branches of [prev()]. *)
Lemma prev_hide (s : State) :
  0 <= currentFragmentIndex s <= length_ s - 1 ->
  prev pg s =
  updateNav
    (set_currentFragmentIndex (currentFragmentIndex s - 1)
       (set_fragments (<[Z.to_nat (currentFragmentIndex s) := false]> (fragments s))
          s)).
Proof.
  intros H. unfold prev.
  destruct (Z.leb_spec 0 (currentFragmentIndex s)) as [_|?]; [|lia].
  destruct (index_some (fragments s) (currentFragmentIndex s)) as [x ->];
    [unfold length_ in H; lia | reflexivity].
Qed.

Lemma prev_custom (s : State) (url : string) :
  currentFragmentIndex s < 0 ->
  custom_target pg data_prev_slide = Some url ->
  prev pg s = assign_href url s.
Proof.
  intros H C. unfold prev.
  destruct (Z.leb_spec 0 (currentFragmentIndex s)); [lia|].
  now rewrite C.
Qed.

Lemma prev_numeric (s : State) :
  currentFragmentIndex s < 0 ->
  custom_target pg data_prev_slide = None ->
  prev pg s =
  updateNav (if 1 <? currentSlide s
             then goToSlide (currentSlide s - 1) s else s).
Proof.
  intros H C. unfold prev.
  destruct (Z.leb_spec 0 (currentFragmentIndex s)); [lia|].
  now rewrite C.
Qed.

Lemma observed_updateNav (s : State) : observed (updateNav s) = observed s.
Proof.
  unfold observed. destruct (updateNav_fields s) as (-> & -> & -> & _).
  reflexivity.
Qed.

(** Where the else branch of [next()] or [prev()] ends: the state, or one
    more entry in the navigation log. *)
Lemma next_at_end (s : State) :
  length_ s - 1 <= currentFragmentIndex s ->
  observed (next pg s) = observed s \/
  exists url, observed (next pg s)
              = (currentFragmentIndex s, fragments s, url :: href s).
Proof.
  intros H. destruct (custom_target pg data_next_slide) as [url|] eqn:C.
  - right. exists url. now rewrite (next_custom s url H C).
  - rewrite (next_numeric s H C), observed_updateNav.
    destruct (currentSlide s <? totalSlides s); [|now left].
    rewrite goToSlide_decide. destruct (decide _); [|now left].
    right. eexists. reflexivity.
Qed.

Lemma prev_at_start (s : State) :
  currentFragmentIndex s < 0 ->
  observed (prev pg s) = observed s \/
  exists url, observed (prev pg s)
              = (currentFragmentIndex s, fragments s, url :: href s).
Proof.
  intros H. destruct (custom_target pg data_prev_slide) as [url|] eqn:C.
  - right. exists url. now rewrite (prev_custom s url H C).
  - rewrite (prev_numeric s H C), observed_updateNav.
    destruct (1 <? currentSlide s); [|now left].
    rewrite goToSlide_decide. destruct (decide _); [|now left].
    right. eexists. reflexivity.
Qed.

Lemma observed_reveal (s : State) :
  -1 <= currentFragmentIndex s < length_ s - 1 ->
  observed (next pg s)
  = (currentFragmentIndex s + 1,
     <[Z.to_nat (currentFragmentIndex s + 1) := true]> (fragments s),
     href s).
Proof. intros H. now rewrite (next_reveal s H), observed_updateNav. Qed.

Lemma observed_hide (s : State) :
  0 <= currentFragmentIndex s <= length_ s - 1 ->
  observed (prev pg s)
  = (currentFragmentIndex s - 1,
     <[Z.to_nat (currentFragmentIndex s) := false]> (fragments s),
     href s).
Proof. intros H. now rewrite (prev_hide s H), observed_updateNav. Qed.

Lemma observed_inj (s t : State) (i : Z) (f : list bool) (h : list string) :
  observed s = (i, f, h) ->
  currentFragmentIndex s = i /\ fragments s = f /\ href s = h.
Proof. unfold observed. intros [= -> -> ->]. auto. Qed.

(** The range of the fragment index is kept by both calls. *)
Lemma next_inv (s : State) : inv s -> inv (next pg s).
Proof.
  unfold inv. intros H.
  destruct (Z.lt_ge_cases (currentFragmentIndex s) (length_ s - 1)) as [L|L].
  - destruct (observed_inj _ s _ _ _ (observed_reveal s ltac:(lia)))
      as (Hi & Hf & _).
    unfold length_ in *. rewrite Hi, Hf, length_insert. lia.
  - destruct (next_at_end s L) as [E|[url E]];
      destruct (observed_inj _ s _ _ _ E) as (Hi & Hf & _);
      unfold length_ in *; rewrite Hi, Hf; lia.
Qed.

Lemma prev_inv (s : State) : inv s -> inv (prev pg s).
Proof.
  unfold inv. intros H.
  destruct (Z.lt_ge_cases (currentFragmentIndex s) 0) as [L|L].
  - destruct (prev_at_start s L) as [E|[url E]];
      destruct (observed_inj _ s _ _ _ E) as (Hi & Hf & _);
      unfold length_ in *; rewrite Hi, Hf; lia.
  - destruct (observed_inj _ s _ _ _ (observed_hide s ltac:(lia)))
      as (Hi & Hf & _).
    unfold length_ in *. rewrite Hi, Hf, length_insert. lia.
Qed.

Lemma run_inv (cs : list call) (s : State) : inv s -> inv (run pg cs s).
Proof.
  revert s. induction cs as [|c cs IH]; intros s H; [exact H|].
  apply IH. destruct c; [now apply next_inv | now apply prev_inv].
Qed.

End NextPrev.

Lemma constructor_inv (pg : Presenter.Page) :
  Presenter.inv (Presenter.constructor pg).
Proof.
  unfold Presenter.inv, Presenter.length_, Presenter.constructor, Presenter.init.
  destruct (Presenter.slide_container pg), (Presenter.slide_el pg); simpl;
    match goal with
    | |- context [Presenter.updateNav ?s] =>
        destruct (updateNav_fields s) as (-> & -> & _)
    end; simpl; lia.
Qed.

(** C1, as the code has it.  In a state whose fragment index is in range,
    [next()] takes the first of these that applies: below the last fragment it
    adds one to the index and marks that fragment visible, with no navigation
    and no error; else with a custom next target it navigates there; else
    with [0 <= currentSlide < totalSlides] it navigates to the file of slide
    [currentSlide + 1]; else it leaves index, fragments and navigation log as
    they are. *)
Theorem next_priority (pg : Presenter.Page) (s : Presenter.State) :
  Presenter.inv s ->
  (Presenter.currentFragmentIndex s < Presenter.length_ s - 1 ->
     Presenter.currentFragmentIndex (Presenter.next pg s)
       = Presenter.currentFragmentIndex s + 1 /\
     Presenter.fragments (Presenter.next pg s)
       = <[Z.to_nat (Presenter.currentFragmentIndex s + 1) := true]>
           (Presenter.fragments s) /\
     Presenter.href (Presenter.next pg s) = Presenter.href s /\
     Presenter.uncaught (Presenter.next pg s) = Presenter.uncaught s)
  /\
  (Presenter.length_ s - 1 <= Presenter.currentFragmentIndex s ->
     forall url,
       Presenter.custom_target pg Presenter.data_next_slide = Some url ->
       Presenter.next pg s = Presenter.assign_href url s)
  /\
  (Presenter.length_ s - 1 <= Presenter.currentFragmentIndex s ->
     Presenter.custom_target pg Presenter.data_next_slide = None ->
     0 <= Presenter.currentSlide s < Presenter.totalSlides s ->
     Presenter.observed (Presenter.next pg s)
     = (Presenter.currentFragmentIndex s, Presenter.fragments s,
        Presenter.slide_file (Presenter.currentSlide s + 1) :: Presenter.href s))
  /\
  (Presenter.length_ s - 1 <= Presenter.currentFragmentIndex s ->
     Presenter.custom_target pg Presenter.data_next_slide = None ->
     ~ 0 <= Presenter.currentSlide s < Presenter.totalSlides s ->
     Presenter.observed (Presenter.next pg s) = Presenter.observed s).
Proof.
  intros I. unfold Presenter.inv in I.
  split; [|split; [|split]].
  - intros L. rewrite (next_reveal pg s) by lia.
    match goal with
    | |- context [Presenter.updateNav ?t] =>
        destruct (updateNav_fields t) as (-> & -> & -> & _ & _ & ->)
    end. simpl. auto.
  - intros L url C. now apply next_custom.
  - intros L C R. rewrite (next_numeric pg s L C), observed_updateNav.
    destruct (Z.ltb_spec (Presenter.currentSlide s) (Presenter.totalSlides s));
      [|lia].
    rewrite goToSlide_decide. destruct (decide _); [reflexivity | lia].
  - intros L C R. rewrite (next_numeric pg s L C), observed_updateNav.
    destruct (Z.ltb_spec (Presenter.currentSlide s) (Presenter.totalSlides s));
      [|reflexivity].
    rewrite goToSlide_decide. destruct (decide _); [lia | reflexivity].
Qed.

(** Slide 4 of 10, no fragments: [next()] goes to [slide-05.html]. *)
Lemma next_priority_witness :
  let pg := Samples.deck_page "10" "4" [] in
  let s := Presenter.constructor pg in
  Presenter.inv s /\
  Presenter.observed (Presenter.next pg s) = (-1, [], ["slide-05.html"]).
Proof.
  intros pg s.
  assert (I : Presenter.inv s) by (vm_compute; split; discriminate).
  split; [exact I|].
  apply (proj1 (proj2 (proj2 (next_priority pg s I)))).
  - vm_compute. discriminate.
  - reflexivity.
  - vm_compute. split; [discriminate | reflexivity].
Defined.

(** C1 as stated fails where the current slide number is negative: with
    [data-current-slide="-2"] of 3 slides, no fragment and no custom target,
    the current slide is below the total, and [goToSlide(-1)] does not
    navigate. *)
Lemma next_negative_slide :
  let pg := Samples.deck_page "3" "-2" [] in
  let s := Presenter.constructor pg in
  Presenter.inv s /\
  ~ Presenter.currentFragmentIndex s < Presenter.length_ s - 1 /\
  Presenter.custom_target pg Presenter.data_next_slide = None /\
  Presenter.currentSlide s < Presenter.totalSlides s /\
  Presenter.href (Presenter.next pg s) = Presenter.href s /\
  Presenter.href (Presenter.next pg s)
    <> Presenter.slide_file (Presenter.currentSlide s + 1) :: Presenter.href s.
Proof.
  vm_compute. repeat split; discriminate.
Qed.

(** C2, as the code has it.  In a state whose fragment index is in range,
    [prev()] takes the first of these that applies: at an index of 0 or more it
    takes the visible mark from the fragment at the index and subtracts one
    from the index, with no navigation and no error; else with a custom
    previous target it navigates there; else with
    [1 < currentSlide <= totalSlides + 1] it navigates to the file of slide
    [currentSlide - 1]; else it leaves index, fragments and navigation log as
    they are. *)
Theorem prev_priority (pg : Presenter.Page) (s : Presenter.State) :
  Presenter.inv s ->
  (0 <= Presenter.currentFragmentIndex s ->
     Presenter.currentFragmentIndex (Presenter.prev pg s)
       = Presenter.currentFragmentIndex s - 1 /\
     Presenter.fragments (Presenter.prev pg s)
       = <[Z.to_nat (Presenter.currentFragmentIndex s) := false]>
           (Presenter.fragments s) /\
     Presenter.href (Presenter.prev pg s) = Presenter.href s /\
     Presenter.uncaught (Presenter.prev pg s) = Presenter.uncaught s)
  /\
  (Presenter.currentFragmentIndex s < 0 ->
     forall url,
       Presenter.custom_target pg Presenter.data_prev_slide = Some url ->
       Presenter.prev pg s = Presenter.assign_href url s)
  /\
  (Presenter.currentFragmentIndex s < 0 ->
     Presenter.custom_target pg Presenter.data_prev_slide = None ->
     1 < Presenter.currentSlide s <= Presenter.totalSlides s + 1 ->
     Presenter.observed (Presenter.prev pg s)
     = (Presenter.currentFragmentIndex s, Presenter.fragments s,
        Presenter.slide_file (Presenter.currentSlide s - 1) :: Presenter.href s))
  /\
  (Presenter.currentFragmentIndex s < 0 ->
     Presenter.custom_target pg Presenter.data_prev_slide = None ->
     ~ 1 < Presenter.currentSlide s <= Presenter.totalSlides s + 1 ->
     Presenter.observed (Presenter.prev pg s) = Presenter.observed s).
Proof.
  intros I. unfold Presenter.inv in I.
  split; [|split; [|split]].
  - intros L. rewrite (prev_hide pg s) by lia.
    match goal with
    | |- context [Presenter.updateNav ?t] =>
        destruct (updateNav_fields t) as (-> & -> & -> & _ & _ & ->)
    end. simpl. auto.
  - intros L url C. now apply prev_custom.
  - intros L C R. rewrite (prev_numeric pg s L C), observed_updateNav.
    destruct (Z.ltb_spec 1 (Presenter.currentSlide s)); [|lia].
    rewrite goToSlide_decide. destruct (decide _); [reflexivity | lia].
  - intros L C R. rewrite (prev_numeric pg s L C), observed_updateNav.
    destruct (Z.ltb_spec 1 (Presenter.currentSlide s)); [|reflexivity].
    rewrite goToSlide_decide. destruct (decide _); [lia | reflexivity].
Qed.

(** Slide 4 of 10 with two fragments, both revealed: [prev()] hides the
    second. *)
Lemma prev_priority_witness :
  let pg := Samples.deck_page "10" "4" [false; false] in
  let s := Presenter.nexts pg 2 (Presenter.constructor pg) in
  Presenter.inv s /\
  Presenter.currentFragmentIndex (Presenter.prev pg s) = 0 /\
  Presenter.fragments (Presenter.prev pg s) = [true; false] /\
  Presenter.href (Presenter.prev pg s) = [].
Proof.
  intros pg s.
  assert (I : Presenter.inv s) by (vm_compute; split; discriminate).
  split; [exact I|].
  assert (L : 0 <= Presenter.currentFragmentIndex s) by (vm_compute; discriminate).
  destruct (proj1 (prev_priority pg s I) L) as (Hi & Hf & Hh & _).
  rewrite Hi, Hf, Hh. repeat split.
Defined.

(** C2 as stated fails where the current slide lies more than one past the
    total: a container with [data-current-slide="3"] and no total gives
    [totalSlides = 1], and [goToSlide(2)] does not navigate. *)
Lemma prev_beyond_total :
  let pg := Samples.untotalled_page "3" in
  let s := Presenter.constructor pg in
  Presenter.inv s /\
  ~ 0 <= Presenter.currentFragmentIndex s /\
  Presenter.custom_target pg Presenter.data_prev_slide = None /\
  1 < Presenter.currentSlide s /\
  Presenter.href (Presenter.prev pg s) = Presenter.href s /\
  Presenter.href (Presenter.prev pg s)
    <> Presenter.slide_file (Presenter.currentSlide s - 1) :: Presenter.href s.
Proof.
  vm_compute. repeat split; try discriminate.
  intros H. apply H. reflexivity.
Qed.

(** The scenarios of the specification: Right on slide 4 of 10 goes to
    [slide-05.html]; Right on the last slide does nothing; a custom target
    wins over the numbering. *)
Example right_on_slide_4 :
  let pg := Samples.deck_page "10" "4" [] in
  Presenter.href (Presenter.switch_key pg "ArrowRight" (Presenter.constructor pg))
  = ["slide-05.html"].
Proof. reflexivity. Qed.

Example right_on_last_slide :
  let pg := Samples.deck_page "10" "10" [] in
  Presenter.switch_key pg "ArrowRight" (Presenter.constructor pg)
  = Presenter.constructor pg.
Proof. reflexivity. Qed.

Example left_on_first_slide :
  let pg := Samples.deck_page "10" "1" [] in
  Presenter.switch_key pg "ArrowLeft" (Presenter.constructor pg)
  = Presenter.constructor pg.
Proof. reflexivity. Qed.

Example custom_targets :
  let pg := Samples.linked_page in
  let s := Presenter.constructor pg in
  Presenter.href (Presenter.next pg s) = ["appendix.html"] /\
  Presenter.href (Presenter.prev pg s) = ["intro.html"].
Proof. split; reflexivity. Qed.

(* ===================================================================== *)
(** ** SlidePresenter: the fragment index over sequences of calls *)
(* ===================================================================== *)

Section Sequences.

Import Presenter.

Variable pg : Page.

Lemma nexts_succ (k : nat) (s : State) :
  nexts pg (S k) s = next pg (nexts pg k s).
Proof.
  revert s. induction k as [|k IH]; intros s; [reflexivity|].
  change (nexts pg (S (S k)) s) with (nexts pg (S k) (next pg s)).
  now rewrite IH.
Qed.

(** [k] calls of [next()] that stay below the last fragment reveal the next
    [k] fragments, one per call and in document order, and do not navigate. *)
Lemma nexts_reveal (k : nat) (s : State) :
  inv s ->
  Z.of_nat k <= length_ s - 1 - currentFragmentIndex s ->
  currentFragmentIndex (nexts pg k s) = currentFragmentIndex s + Z.of_nat k /\
  href (nexts pg k s) = href s /\
  length (fragments (nexts pg k s)) = length (fragments s) /\
  forall j : nat,
    fragments (nexts pg k s) !! j =
    if decide (currentFragmentIndex s < Z.of_nat j
               <= currentFragmentIndex s + Z.of_nat k)
    then Some true else fragments s !! j.
Proof.
  induction k as [|k IH]; intros I B.
  - simpl. repeat split; [lia|]. intros j. destruct (decide _); [lia | reflexivity].
  - assert (B' : Z.of_nat k <= length_ s - 1 - currentFragmentIndex s) by lia.
    destruct (IH I B') as (Hi & Hh & Hl & Hf).
    set (t := nexts pg k s) in *.
    assert (R : -1 <= currentFragmentIndex t < length_ t - 1).
    { unfold inv, length_ in *. rewrite Hi, Hl. lia. }
    rewrite nexts_succ. fold t.
    destruct (observed_inj _ t _ _ _ (observed_reveal pg t R)) as (Ni & Nf & Nh).
    rewrite Ni, Nf, Nh, length_insert, Hi, Hh, Hl.
    repeat split; [lia|]. intros j.
    destruct (decide (j = Z.to_nat (currentFragmentIndex s + Z.of_nat k + 1)))
      as [->|Hne].
    + rewrite list_lookup_insert_eq
        by (unfold inv, length_ in *; rewrite Hl; lia).
      destruct (decide _); [reflexivity|]. unfold inv in I. lia.
    + rewrite list_lookup_insert_ne by congruence. rewrite Hf.
      unfold inv in I.
      repeat destruct (decide _); try reflexivity; lia.
Qed.

End Sequences.

(** C5.  From a state whose fragment index is in [-1, fragments.length - 1]:
    every sequence of [next()] and [prev()] calls ends in such a state; one
    call moves the index by at most one; [next()] navigates only at index
    [fragments.length - 1] and [prev()] only at index [-1]; the first
    [F - 1 - i] calls of [next()] reveal fragments [i + 1], [i + 2], ... one by
    one without navigating, and after [F - i] calls every fragment past [i]
    is visible, so that the only call that can navigate is the last. *)
Theorem fragment_index_invariant (pg : Presenter.Page) (s : Presenter.State) :
  Presenter.inv s ->
  (forall cs, Presenter.inv (Presenter.run pg cs s))
  /\
  (forall c,
     -1 <= Presenter.currentFragmentIndex (Presenter.do_call pg c s)
           - Presenter.currentFragmentIndex s <= 1)
  /\
  (Presenter.href (Presenter.next pg s) <> Presenter.href s ->
   Presenter.currentFragmentIndex s = Presenter.length_ s - 1)
  /\
  (Presenter.href (Presenter.prev pg s) <> Presenter.href s ->
   Presenter.currentFragmentIndex s = -1)
  /\
  (forall k : nat,
     Z.of_nat k <= Presenter.length_ s - 1 - Presenter.currentFragmentIndex s ->
     Presenter.currentFragmentIndex (Presenter.nexts pg k s)
       = Presenter.currentFragmentIndex s + Z.of_nat k /\
     Presenter.href (Presenter.nexts pg k s) = Presenter.href s /\
     forall j : nat,
       Presenter.fragments (Presenter.nexts pg k s) !! j =
       if decide (Presenter.currentFragmentIndex s < Z.of_nat j
                  <= Presenter.currentFragmentIndex s + Z.of_nat k)
       then Some true else Presenter.fragments s !! j)
  /\
  (forall j : nat,
     Presenter.currentFragmentIndex s < Z.of_nat j < Presenter.length_ s ->
     Presenter.fragments
       (Presenter.nexts pg
          (Z.to_nat (Presenter.length_ s - Presenter.currentFragmentIndex s)) s)
       !! j = Some true).
Proof.
  intros I. pose proof I as I'. unfold Presenter.inv in I'.
  split; [|split; [|split; [|split; [|split]]]].
  - intros cs. now apply run_inv.
  - intros [|]; simpl.
    + destruct (Z.lt_ge_cases (Presenter.currentFragmentIndex s)
                  (Presenter.length_ s - 1)) as [L|L].
      * destruct (observed_inj _ s _ _ _ (observed_reveal pg s ltac:(lia)))
          as (-> & _). lia.
      * destruct (next_at_end pg s L) as [E|[url E]];
          destruct (observed_inj _ s _ _ _ E) as (-> & _); lia.
    + destruct (Z.lt_ge_cases (Presenter.currentFragmentIndex s) 0) as [L|L].
      * destruct (prev_at_start pg s L) as [E|[url E]];
          destruct (observed_inj _ s _ _ _ E) as (-> & _); lia.
      * destruct (observed_inj _ s _ _ _ (observed_hide pg s ltac:(lia)))
          as (-> & _). lia.
  - intros N.
    destruct (Z.lt_ge_cases (Presenter.currentFragmentIndex s)
                (Presenter.length_ s - 1)) as [L|L]; [|lia].
    destruct (observed_inj _ s _ _ _ (observed_reveal pg s ltac:(lia)))
      as (_ & _ & E). contradiction.
  - intros N.
    destruct (Z.lt_ge_cases (Presenter.currentFragmentIndex s) 0) as [L|L]; [lia|].
    destruct (observed_inj _ s _ _ _ (observed_hide pg s ltac:(lia)))
      as (_ & _ & E). contradiction.
  - intros k B. destruct (nexts_reveal pg k s I B) as (Hi & Hh & _ & Hf). auto.
  - intros j J.
    set (k := Z.to_nat (Presenter.length_ s - 1 - Presenter.currentFragmentIndex s)).
    replace (Z.to_nat (Presenter.length_ s - Presenter.currentFragmentIndex s))
      with (S k) by (unfold k; lia).
    destruct (nexts_reveal pg k s I ltac:(unfold k; lia)) as (Hi & _ & Hl & Hf).
    rewrite nexts_succ.
    set (t := Presenter.nexts pg k s) in *.
    assert (L : Presenter.length_ t - 1 <= Presenter.currentFragmentIndex t).
    { unfold Presenter.length_ in *. rewrite Hi, Hl. unfold k. lia. }
    assert (F : Presenter.fragments (Presenter.next pg t) = Presenter.fragments t).
    { destruct (next_at_end pg t L) as [E|[url E]];
        destruct (observed_inj _ t _ _ _ E) as (_ & E' & _); exact E'. }
    rewrite F, Hf. destruct (decide _); [reflexivity|]. unfold k in *. lia.
Qed.

(** Three hidden fragments, none revealed: three calls reveal them, the
    fourth navigates. *)
Lemma fragment_index_invariant_witness :
  let pg := Samples.deck_page "10" "4" [false; false; false] in
  let s := Presenter.constructor pg in
  Presenter.inv s /\
  Presenter.inv
    (Presenter.run pg [Presenter.Next; Presenter.Prev; Presenter.Prev] s) /\
  Presenter.observed (Presenter.nexts pg 2 s) = (1, [true; true; false], []) /\
  Presenter.observed (Presenter.nexts pg 3 s) = (2, [true; true; true], []) /\
  Presenter.observed (Presenter.nexts pg 4 s)
    = (2, [true; true; true], ["slide-05.html"]) /\
  Presenter.fragments (Presenter.nexts pg 4 s) !! 2%nat = Some true.
Proof.
  intros pg s.
  assert (I : Presenter.inv s) by (vm_compute; split; discriminate).
  split; [exact I|].
  split; [apply (fragment_index_invariant pg s I)|].
  split; [reflexivity|]. split; [reflexivity|]. split; [reflexivity|].
  apply (proj2 (proj2 (proj2 (proj2 (proj2 (fragment_index_invariant pg s I)))))
           2%nat).
  vm_compute. split; reflexivity.
Defined.

(* ===================================================================== *)
(** ** The unified variant: dialog and presenter *)
(* ===================================================================== *)

Section UnifiedFacts.

Import Unified.

Variable pg : Page.

Lemma click_info_btn (ev : Dom.Click Role) (k : nat) (btn : InfoBtn) (w : World) :
  Dom.role (Dom.target ev) = InfoBtnEl k ->
  info_btns pg !! k = Some btn ->
  click pg ev w = info_click pg btn w.
Proof.
  intros T B. unfold click, Dom.path. simpl. unfold listeners.
  now rewrite T, B.
Qed.

Lemma click_close_btn (ev : Dom.Click Role) (w : World) :
  Dom.role (Dom.target ev) = CloseBtn -> click pg ev w = close w.
Proof.
  intros T. unfold click, Dom.path. simpl. unfold listeners. now rewrite T.
Qed.

Lemma click_overlay (ev : Dom.Click Role) (w : World) :
  Dom.role (Dom.target ev) = Overlay -> click pg ev w = close w.
Proof.
  intros T. unfold click, Dom.path. simpl. unfold listeners, is_overlay.
  now rewrite T.
Qed.

Lemma open_fields (t b : string) (w : World) :
  presenter (open pg t b w) = presenter w /\
  overlay_open (open pg t b w) = true /\
  dialog_title (open pg t b w) = t /\
  dialog_body (open pg t b w) = b.
Proof. unfold open. destruct (MathJax pg); simpl; auto. Qed.

Lemma info_click_presenter (btn : InfoBtn) (w : World) :
  presenter (info_click pg btn w) = presenter w.
Proof.
  unfold info_click. destruct (getElementById _ _); [|reflexivity].
  apply open_fields.
Qed.

(** While the dialog is open, no listener on the path of a click reaches
    the presenter: the slide's returns at the gate, and the ones that close
    the dialog stop the propagation. *)
Lemma bubble_while_open (ev : Dom.Click Role) (nodes : list (Dom.Element Role))
    (w : World) :
  isOpen w = true ->
  presenter (Dom.bubble (listeners pg ev) nodes w) = presenter w.
Proof.
  revert w. induction nodes as [|e up IH]; intros w O; [reflexivity|].
  simpl. unfold listeners at 1.
  destruct (Dom.role e) as [| | | |k].
  - now apply IH.
  - unfold slide_click. rewrite O.
    destruct (Dom.on_control ev); now apply IH.
  - destruct (is_overlay (Dom.target ev)); reflexivity.
  - reflexivity.
  - destruct (info_btns pg !! k) as [btn|]; [|now apply IH].
    apply info_click_presenter.
Qed.

Lemma keydown_while_open (key : string) (w : World) :
  isOpen w = true -> keydown pg key w = dialog_keydown key w.
Proof. intros O. unfold keydown, handleKeydown. now rewrite O. Qed.

Lemma dialog_keydown_presenter (key : string) (w : World) :
  presenter (dialog_keydown key w) = presenter w.
Proof. unfold dialog_keydown. destruct (_ && _); reflexivity. Qed.

Lemma keydown_while_closed (key : string) (w : World) :
  isOpen w = false ->
  keydown pg key w = with_presenter (Presenter.switch_key (base pg) key) w.
Proof.
  intros O. unfold keydown, handleKeydown. rewrite O.
  unfold dialog_keydown. unfold isOpen in O. simpl. rewrite O.
  now rewrite andb_false_r.
Qed.

(** Elements without listeners pass a click on. *)
Lemma bubble_plain (ev : Dom.Click Role) (inner rest : list (Dom.Element Role))
    (w : World) :
  forallb is_plain inner = true ->
  Dom.bubble (listeners pg ev) (inner ++ rest) w
  = Dom.bubble (listeners pg ev) rest w.
Proof.
  induction inner as [|e inner IH]; intros P; [reflexivity|].
  simpl in P. apply andb_true_iff in P as [Pe P].
  simpl. unfold listeners at 1. unfold is_plain in Pe.
  destruct (Dom.role e); try discriminate. now apply IH.
Qed.

(** A click on the slide surface with the dialog closed is one [next()]. *)
Lemma click_surface_closed (ev : Dom.Click Role) (w : World) :
  Contract.on_surface is_plain is_slide ev ->
  isOpen w = false ->
  click pg ev w = with_presenter (Presenter.next (base pg)) w.
Proof.
  intros (C & inner & sl & outer & P & Pi & S & Po) O.
  unfold click. rewrite P, bubble_plain by exact Pi.
  simpl. unfold listeners at 1. unfold is_slide in S.
  destruct (Dom.role sl); try discriminate.
  unfold slide_click. rewrite C, O.
  rewrite <- (app_nil_r outer). now rewrite bubble_plain.
Qed.

Lemma settle_handled (o : Outcome) (w : World) :
  handled w ->
  handled (settle o w) /\
  presenter (settle o w) = presenter w /\
  overlay_open (settle o w) = overlay_open w /\
  dialog_title (settle o w) = dialog_title w /\
  dialog_body (settle o w) = dialog_body w.
Proof.
  unfold handled, settle. intros H.
  destruct (pending w) as [|h rest] eqn:E; [rewrite E; auto|].
  inversion H as [|? ? [x Hx] Hr]; subst.
  destruct o, x; simpl; auto.
Qed.

Lemma settle_all_handled (os : list Outcome) (w : World) :
  handled w ->
  presenter (settle_all os w) = presenter w /\
  overlay_open (settle_all os w) = overlay_open w /\
  dialog_title (settle_all os w) = dialog_title w /\
  dialog_body (settle_all os w) = dialog_body w.
Proof.
  revert w. induction os as [|o os IH]; intros w H; [auto|].
  change (settle_all (o :: os) w) with (settle_all os (settle o w)).
  destruct (settle_handled o w H) as (H' & <- & <- & <- & <-).
  apply (IH _ H').
Qed.

Lemma open_handled (t b : string) (w : World) :
  handled w -> handled (open pg t b w).
Proof.
  unfold handled, open. intros H. destruct (MathJax pg); simpl; [|exact H].
  apply Forall_app. split; [exact H|]. constructor; [eexists; reflexivity|constructor].
Qed.

End UnifiedFacts.

(** The dialog manager only ever queues promises with a handler. *)
Lemma handled_loaded (pg : Unified.Page) : Unified.handled (Unified.loaded pg).
Proof. constructor. Qed.

Lemma handled_bubble (pg : Unified.Page) (ev : Dom.Click Unified.Role)
    (nodes : list (Dom.Element Unified.Role)) (w : Unified.World) :
  Unified.handled w ->
  Unified.handled (Dom.bubble (Unified.listeners pg ev) nodes w).
Proof.
  revert w. induction nodes as [|e up IH]; intros w H; [exact H|].
  simpl. unfold Unified.listeners at 1.
  destruct (Dom.role e) as [| | | |k].
  - now apply IH.
  - apply IH. unfold Unified.slide_click.
    destruct (Dom.on_control ev); [exact H|].
    destruct (Unified.isOpen w); exact H.
  - destruct (Unified.is_overlay (Dom.target ev)); exact H.
  - exact H.
  - destruct (Unified.info_btns pg !! k) as [btn|]; [|now apply IH].
    unfold Unified.info_click.
    destruct (Unified.getElementById _ _); [|exact H].
    now apply open_handled.
Qed.

Lemma handled_keydown (pg : Unified.Page) (key : string) (w : Unified.World) :
  Unified.handled w -> Unified.handled (Unified.keydown pg key w).
Proof.
  intros H. unfold Unified.keydown, Unified.handleKeydown, Unified.dialog_keydown.
  destruct (Unified.isOpen w); destruct (_ && _); exact H.
Qed.

(** C7.  With the dialog open, Escape closes it and the presenter stays as it
    was: nothing is added to the navigation log, so the index page is not
    opened.  A click on the close button, and a click on the overlay itself,
    close the dialog and leave the presenter as it was, whatever elements lie
    above the overlay: the slide does not advance. *)
Theorem dialog_dismissal (pg : Unified.Page) (w : Unified.World) :
  (Unified.isOpen w = true ->
     Unified.isOpen (Unified.keydown pg "Escape" w) = false /\
     Unified.presenter (Unified.keydown pg "Escape" w) = Unified.presenter w)
  /\
  (forall ev : Dom.Click Unified.Role,
     Dom.role (Dom.target ev) = Unified.CloseBtn ->
     Unified.isOpen (Unified.click pg ev w) = false /\
     Unified.presenter (Unified.click pg ev w) = Unified.presenter w)
  /\
  (forall ev : Dom.Click Unified.Role,
     Dom.role (Dom.target ev) = Unified.Overlay ->
     Unified.isOpen (Unified.click pg ev w) = false /\
     Unified.presenter (Unified.click pg ev w) = Unified.presenter w).
Proof.
  split; [|split].
  - intros O. rewrite keydown_while_open by exact O.
    unfold Unified.dialog_keydown. unfold Unified.isOpen in O. rewrite O.
    simpl. auto.
  - intros ev T. rewrite click_close_btn by exact T. auto.
  - intros ev T. rewrite click_overlay by exact T. auto.
Qed.

(** The dialog opened from the first info button, then Escape, then opened
    again and closed by its button. *)
Lemma dialog_dismissal_witness :
  let pg := Samples.info_page in
  let w := Unified.click pg (Samples.info_btn_click 0) (Unified.loaded pg) in
  Unified.isOpen w = true /\
  Unified.isOpen (Unified.keydown pg "Escape" w) = false /\
  Presenter.href (Unified.presenter (Unified.keydown pg "Escape" w)) = [] /\
  Unified.isOpen
    (Unified.click pg (Contract.close_control Samples.info_layout) w) = false.
Proof.
  intros pg w.
  assert (O : Unified.isOpen w = true) by reflexivity.
  split; [exact O|].
  destruct (proj1 (dialog_dismissal pg w) O) as (C & P).
  split; [exact C|]. split; [rewrite P; reflexivity|].
  apply (proj1 (proj2 (dialog_dismissal pg w))). reflexivity.
Defined.

(** C10.  A click on an info button, or on an element inside of it, whose
    dialog id names no element changes nothing: dialog flag, title, body,
    pending promises and presenter are as before.  The button's listener stops
    the propagation, so no listener above the button runs. *)
Theorem info_click_unknown_dialog (pg : Unified.Page)
    (ev : Dom.Click Unified.Role)
    (inner outer : list (Dom.Element Unified.Role))
    (b : Dom.Element Unified.Role) (k : nat) (btn : Unified.InfoBtn)
    (w : Unified.World) :
  Dom.path ev = (inner ++ b :: outer)%list ->
  forallb Unified.is_plain inner = true ->
  Dom.role b = Unified.InfoBtnEl k ->
  Unified.info_btns pg !! k = Some btn ->
  Unified.getElementById pg (Unified.to_id (Unified.data_dialog btn)) = None ->
  Unified.click pg ev w = w /\
  Unified.listeners pg ev b w = (w, true).
Proof.
  intros P I T B G.
  assert (L : Unified.listeners pg ev b w = (w, true)).
  { unfold Unified.listeners. rewrite T, B.
    unfold Unified.info_click. now rewrite G. }
  split; [|exact L].
  unfold Unified.click. rewrite P, bubble_plain by exact I.
  simpl. now rewrite L.
Qed.

(** The second info button of the sample page names the missing id
    ["missing"]: a click on it changes nothing, with the dialog open or
    closed. *)
Lemma info_click_unknown_dialog_witness :
  let pg := Samples.info_page in
  let w := Unified.click pg (Samples.info_btn_click 0) (Unified.loaded pg) in
  Unified.isOpen w = true /\
  Unified.click pg (Samples.info_btn_click 1) w = w /\
  Unified.click pg (Samples.info_btn_click 1) (Unified.loaded pg)
    = Unified.loaded pg.
Proof.
  intros pg w. split; [reflexivity|]. split.
  - apply (info_click_unknown_dialog pg (Samples.info_btn_click 1) []
             Samples.info_shell
             (Samples.el "BUTTON" ["info-btn"] (Unified.InfoBtnEl 1)) 1
             {| Unified.data_dialog := Some "missing"; Unified.textContent := "?" |});
      reflexivity.
  - apply (info_click_unknown_dialog pg (Samples.info_btn_click 1) []
             Samples.info_shell
             (Samples.el "BUTTON" ["info-btn"] (Unified.InfoBtnEl 1)) 1
             {| Unified.data_dialog := Some "missing"; Unified.textContent := "?" |});
      reflexivity.
Defined.

(** C8.  [open(title, bodyHtml)] sets title and body and marks the overlay
    open; with a typesetting engine on the page it queues one promise with
    the handler that swallows a rejection.  However the queued promises end,
    fulfilled or rejected, the overlay stays open with the same title and
    body, and nothing is reported as an error. *)
Theorem open_survives_typesetting (pg : Unified.Page) (title bodyHtml : string)
    (w : Unified.World) (os : list Unified.Outcome) :
  Unified.handled w ->
  Unified.isOpen (Unified.open pg title bodyHtml w) = true /\
  Unified.dialog_title (Unified.open pg title bodyHtml w) = title /\
  Unified.dialog_body (Unified.open pg title bodyHtml w) = bodyHtml /\
  Unified.presenter (Unified.open pg title bodyHtml w) = Unified.presenter w /\
  Unified.pending (Unified.open pg title bodyHtml w)
    = (Unified.pending w
       ++ if Unified.MathJax pg then [Some Unified.Swallow] else [])%list /\
  Unified.isOpen (Unified.settle_all os (Unified.open pg title bodyHtml w)) = true /\
  Unified.dialog_title (Unified.settle_all os (Unified.open pg title bodyHtml w))
    = title /\
  Unified.dialog_body (Unified.settle_all os (Unified.open pg title bodyHtml w))
    = bodyHtml /\
  Unified.presenter (Unified.settle_all os (Unified.open pg title bodyHtml w))
    = Unified.presenter w.
Proof.
  intros H.
  destruct (open_fields pg title bodyHtml w) as (P & O & T & B).
  destruct (settle_all_handled os _ (open_handled pg title bodyHtml w H))
    as (P' & O' & T' & B').
  unfold Unified.isOpen. rewrite P', O', T', B', P, O, T, B.
  repeat split.
  unfold Unified.open. destruct (Unified.MathJax pg); simpl;
    [reflexivity | now rewrite app_nil_r].
Qed.

(** The engine rejects the promise of the first dialog. *)
Lemma open_survives_typesetting_witness :
  let pg := Samples.info_page in
  let w := Unified.open pg "Notes" "<p>x</p>" (Unified.loaded pg) in
  Unified.handled (Unified.loaded pg) /\
  Unified.pending w = [Some Unified.Swallow] /\
  Unified.isOpen (Unified.settle_all [Unified.Rejected] w) = true /\
  Presenter.uncaught (Unified.presenter (Unified.settle_all [Unified.Rejected] w))
    = [].
Proof.
  intros pg w.
  assert (H : Unified.handled (Unified.loaded pg)) by apply handled_loaded.
  split; [exact H|].
  destruct (open_survives_typesetting pg "Notes" "<p>x</p>" (Unified.loaded pg)
              [Unified.Rejected] H) as (_ & _ & _ & _ & Q & O & _ & _ & P).
  split; [exact Q|]. split; [exact O|]. fold w in P. rewrite P. reflexivity.
Defined.

(* ===================================================================== *)
(** ** The split variant: overlays and presenter *)
(* ===================================================================== *)

Section SplitFacts.

Import Split.

Variable pg : Page.

Lemma has_open_set_same (i : nat) (b : bool) (w : World) :
  (i < length (open_class w))%nat -> has_open i (set_open_class i b w) = b.
Proof.
  intros L. unfold has_open, set_open_class. simpl.
  now rewrite list_lookup_insert_eq.
Qed.

Lemma has_open_set_other (i j : nat) (b : bool) (w : World) :
  i <> j -> has_open j (set_open_class i b w) = has_open j w.
Proof.
  intros N. unfold has_open, set_open_class. simpl.
  now rewrite list_lookup_insert_ne.
Qed.

Lemma find_index_some {A} (p : A -> bool) (l : list A) (i : nat) :
  find_index p l = Some i -> exists x, l !! i = Some x /\ p x = true.
Proof.
  revert i. induction l as [|x l IH]; intros i; simpl; [discriminate|].
  destruct (p x) eqn:Px.
  - intros [= <-]. exists x. auto.
  - destruct (find_index p l) as [j|]; simpl; [|discriminate].
    intros [= <-]. destruct (IH j eq_refl) as (y & Hy & Py). exists y. auto.
Qed.

(** Elements without listeners pass a click on. *)
Lemma split_bubble_plain (ev : Dom.Click Role)
    (inner rest : list (Dom.Element Role)) (w : World) :
  forallb is_plain inner = true ->
  Dom.bubble (listeners pg ev) (inner ++ rest) w
  = Dom.bubble (listeners pg ev) rest w.
Proof.
  induction inner as [|e inner IH]; intros P; [reflexivity|].
  simpl in P. apply andb_true_iff in P as [Pe P].
  simpl. unfold listeners at 1. unfold is_plain in Pe.
  destruct (Dom.role e); try discriminate. now apply IH.
Qed.

(** A click on a control passes the slide's listener without effect. *)
Lemma split_bubble_control (ev : Dom.Click Role)
    (nodes : list (Dom.Element Role)) (w : World) :
  Dom.on_control ev = true ->
  forallb (fun e => is_plain e || is_slide e) nodes = true ->
  Dom.bubble (listeners pg ev) nodes w = w.
Proof.
  intros C. induction nodes as [|e up IH]; intros P; [reflexivity|].
  simpl in P. apply andb_true_iff in P as [Pe P].
  simpl. unfold listeners at 1. unfold is_plain, is_slide in Pe.
  destruct (Dom.role e); try discriminate.
  - now apply IH.
  - unfold slide_click. rewrite C. now apply IH.
Qed.

(** A click on the slide surface is one [next()], open overlay or not. *)
Lemma split_click_surface (ev : Dom.Click Role) (w : World) :
  Contract.on_surface is_plain is_slide ev ->
  click pg ev w = with_presenter (Presenter.next (base pg)) w.
Proof.
  intros (C & inner & sl & outer & P & Pi & S & Po).
  unfold click. rewrite P, split_bubble_plain by exact Pi.
  simpl. unfold listeners at 1. unfold is_slide in S.
  destruct (Dom.role sl); try discriminate.
  unfold slide_click. rewrite C.
  rewrite <- (app_nil_r outer). now rewrite split_bubble_plain.
Qed.

Lemma notes_close_presenter (w : World) :
  presenter (LectureNotesModal.close pg w) = presenter w.
Proof.
  unfold LectureNotesModal.close.
  destruct (LectureNotesModal.overlay pg); reflexivity.
Qed.

Lemma detail_close_presenter (w : World) :
  presenter (DetailButtons.close w) = presenter w.
Proof. unfold DetailButtons.close. destruct (activeOverlay w); reflexivity. Qed.

(** Escape with a tracked overlay open ends at a capture listener. *)
Lemma split_escape_tracked (w : World) :
  tracked_open pg w = true ->
  presenter (keydown pg "Escape" w) = presenter w.
Proof.
  unfold tracked_open, keydown, notes_keydown. intros T.
  destruct (LectureNotesModal.wired pg && LectureNotesModal.isOpen pg w) eqn:N.
  - apply andb_true_iff in N as [-> ->]. simpl. apply notes_close_presenter.
  - simpl in T. apply bool_decide_eq_true in T as [ov A].
    replace (LectureNotesModal.wired pg && String.eqb "Escape" "Escape"
             && LectureNotesModal.isOpen pg w)
      with false
      by (simpl; rewrite andb_true_r; now rewrite N).
    unfold detail_keydown. rewrite A. simpl. unfold DetailButtons.close. now rewrite A.
Qed.

(** Any other key reaches the presenter's switch. *)
Lemma split_other_key (key : string) (w : World) :
  key <> "Escape" ->
  keydown pg key w = with_presenter (Presenter.switch_key (base pg) key) w.
Proof.
  intros N. apply String.eqb_neq in N.
  unfold keydown, notes_keydown, detail_keydown, handleKeydown.
  rewrite N, andb_false_r. simpl.
  destruct (activeOverlay w); reflexivity.
Qed.

End SplitFacts.

(** C3, as the code has it.  In the unified variant an open dialog shields
    the presenter from every key and from every click; with the dialog closed
    a key runs the presenter's switch and a click on the slide surface runs
    [next()].  In the split variant the presenter has no gate: while a
    tracked overlay is open Escape ends at the overlay's capture listener and
    does not reach the presenter, every other key runs the presenter's
    switch, and a click that lands on the slide surface runs [next()]. *)
Theorem dialog_gate (pu : Unified.Page) (u : Unified.World)
    (ps : Split.Page) (s : Split.World) :
  (Unified.isOpen u = true ->
     (forall key,
        Unified.presenter (Unified.keydown pu key u) = Unified.presenter u) /\
     (forall ev,
        Unified.presenter (Unified.click pu ev u) = Unified.presenter u))
  /\
  (Unified.isOpen u = false ->
     (forall key,
        Unified.keydown pu key u
        = Unified.with_presenter
            (Presenter.switch_key (Unified.base pu) key) u) /\
     (forall ev,
        Contract.on_surface Unified.is_plain Unified.is_slide ev ->
        Unified.click pu ev u
        = Unified.with_presenter (Presenter.next (Unified.base pu)) u))
  /\
  (Split.tracked_open ps s = true ->
     Split.presenter (Split.keydown ps "Escape" s) = Split.presenter s)
  /\
  (forall key,
     key <> "Escape" ->
     Split.keydown ps key s
     = Split.with_presenter (Presenter.switch_key (Split.base ps) key) s)
  /\
  (forall ev,
     Contract.on_surface Split.is_plain Split.is_slide ev ->
     Split.click ps ev s
     = Split.with_presenter (Presenter.next (Split.base ps)) s).
Proof.
  split; [|split; [|split; [|split]]].
  - intros O. split.
    + intros key. rewrite keydown_while_open by exact O.
      apply dialog_keydown_presenter.
    + intros ev. now apply bubble_while_open.
  - intros O. split.
    + intros key. now apply keydown_while_closed.
    + intros ev S. now apply click_surface_closed.
  - apply split_escape_tracked.
  - intros key N. now apply split_other_key.
  - intros ev S. now apply split_click_surface.
Qed.

(** The unified page with its dialog open ignores ArrowRight, and reveals a
    fragment once Escape has closed the dialog; the split page with the
    lecture notes open swallows Escape. *)
Lemma dialog_gate_witness :
  let pu := Samples.info_page in
  let u := Unified.click pu (Samples.info_btn_click 0) (Unified.loaded pu) in
  let ps := Samples.notes_page in
  let s := Split.click ps (Contract.trigger Samples.notes_layout)
             (Split.loaded ps) in
  Unified.isOpen u = true /\
  Unified.presenter (Unified.keydown pu "ArrowRight" u) = Unified.presenter u /\
  Unified.isOpen (Unified.keydown pu "Escape" u) = false /\
  Presenter.observed
    (Unified.presenter
       (Unified.keydown pu "ArrowRight" (Unified.keydown pu "Escape" u)))
    = (0, [true; false], []) /\
  Split.tracked_open ps s = true /\
  Split.presenter (Split.keydown ps "Escape" s) = Split.presenter s.
Proof.
  intros pu u ps s.
  assert (O : Unified.isOpen u = true) by reflexivity.
  assert (T : Split.tracked_open ps s = true) by reflexivity.
  assert (C : Unified.isOpen (Unified.keydown pu "Escape" u) = false)
    by reflexivity.
  split; [exact O|].
  split; [apply (proj1 (dialog_gate pu u ps s) O)|].
  split; [exact C|].
  split.
  - rewrite (proj1 (proj1 (proj2 (dialog_gate pu (Unified.keydown pu "Escape" u)
                                    ps s)) C) "ArrowRight").
    reflexivity.
  - split; [exact T|].
    apply (proj1 (proj2 (proj2 (dialog_gate pu u ps s))) T).
Defined.

(** C3 as stated fails in the split variant: with the lecture notes open,
    ArrowRight still reaches [next()] and reveals a fragment. *)
Lemma split_keys_not_gated :
  let ps := Samples.notes_page in
  let s := Split.click ps (Contract.trigger Samples.notes_layout)
             (Split.loaded ps) in
  Split.LectureNotesModal.isOpen ps s = true /\
  Presenter.observed (Split.presenter s) = (-1, [false; false], []) /\
  Presenter.observed (Split.presenter (Split.keydown ps "ArrowRight" s))
    = (0, [true; false], []) /\
  Presenter.observed (Split.presenter (Split.keydown ps "ArrowRight" s))
    <> Presenter.observed (Split.presenter s).
Proof. vm_compute. repeat split. discriminate. Qed.

(* ===================================================================== *)
(** ** The two variants compared *)
(* ===================================================================== *)

Section Simulation.

Import Contract.

Variable pu : Unified.Page.
Variable ps : Split.Page.
Variable lu : Layout Unified.Role.
Variable ls : Layout Split.Role.
Variable ctl : Controller.
Variable ov : nat.

Hypothesis same_base : Unified.base pu = Split.base ps.
Hypothesis layout_u : unified_layout pu lu.
Hypothesis wiring_s : split_wiring ps ctl ov.
Hypothesis layout_s : split_layout ctl ov ls.

(** The unified variant, input by input. *)
Lemma unified_trigger (u : Unified.World) :
  Unified.presenter (unified_step pu lu ClickTrigger u) = Unified.presenter u /\
  Unified.overlay_open (unified_step pu lu ClickTrigger u) = true.
Proof.
  destruct layout_u as ((k & btn & t & T & B & G) & _).
  simpl. rewrite (click_info_btn pu _ k btn u T B).
  unfold Unified.info_click. rewrite G.
  split; apply open_fields.
Qed.

Lemma unified_close (u : Unified.World) :
  unified_step pu lu ClickClose u = Unified.close u.
Proof.
  destruct layout_u as (_ & T & _). simpl. now apply click_close_btn.
Qed.

Lemma unified_outside (u : Unified.World) :
  unified_step pu lu ClickOutside u = Unified.close u.
Proof.
  destruct layout_u as (_ & _ & T & _). simpl. now apply click_overlay.
Qed.

Lemma unified_slide (u : Unified.World) :
  Unified.isOpen u = false ->
  unified_step pu lu ClickSlide u
  = Unified.with_presenter (Presenter.next (Unified.base pu)) u.
Proof.
  destruct layout_u as (_ & _ & _ & S). intros O. simpl.
  now apply click_surface_closed.
Qed.

Lemma unified_escape_open (u : Unified.World) :
  Unified.isOpen u = true ->
  unified_step pu lu (Key "Escape") u = Unified.close u.
Proof.
  intros O. simpl. rewrite keydown_while_open by exact O.
  unfold Unified.dialog_keydown. unfold Unified.isOpen in O. now rewrite O.
Qed.

(** The split variant: the click on the trigger. *)
Lemma split_trigger (s : Split.World) :
  split_step ps ls ClickTrigger s =
  match ctl with
  | Notes => Split.set_open_class ov true s
  | Detail _ => Split.DetailButtons.open ov s
  end.
Proof.
  destruct layout_s as ((T & C & P) & _).
  destruct wiring_s as (_ & W).
  simpl. unfold Split.click, Dom.path. simpl.
  unfold Split.listeners at 1. rewrite T.
  destruct ctl as [|k].
  - destruct W as (W & E). rewrite W. unfold Split.LectureNotesModal.open. rewrite E.
    now apply split_bubble_control.
  - destruct W as ((id & D & G) & _). rewrite D.
    unfold Split.detail_click. rewrite G.
    now apply split_bubble_control.
Qed.

Lemma notes_el_is (i : nat) :
  Split.LectureNotesModal.overlay ps = Some i -> Split.is_notes_el ps i = true.
Proof. unfold Split.is_notes_el. intros ->. apply Nat.eqb_refl. Qed.

Lemma notes_el_overlay (i : nat) :
  Split.LectureNotesModal.overlay ps = Some i -> Split.is_notes_overlay ps i = true.
Proof.
  intros E. destruct (find_index_some _ _ _ E) as (o & L & N).
  unfold Split.is_notes_overlay. now rewrite L.
Qed.

Lemma split_overlay_listener (ev : Dom.Click Split.Role) (s : Split.World) :
  Split.overlay_click ps ov ev s =
  (if Split.is_openable ov (Dom.target ev) then dismissed ctl ov s else s, true).
Proof.
  destruct wiring_s as (_ & W). unfold Split.overlay_click, dismissed.
  destruct ctl as [|k].
  - destruct W as (W & E).
    rewrite W, (notes_el_is _ E), (notes_el_overlay _ E). simpl.
    unfold Split.LectureNotesModal.close. rewrite E.
    destruct (Split.is_openable ov (Dom.target ev)); reflexivity.
  - destruct W as (_ & O & N). rewrite N, O. simpl.
    destruct (Split.is_openable ov (Dom.target ev)); reflexivity.
Qed.

Lemma split_close (s : Split.World) :
  split_step ps ls ClickClose s = dismissed ctl ov s.
Proof.
  destruct layout_s as (_ & (T & inner & el & outer & A & Pi & R) & _).
  destruct wiring_s as (Hc & W).
  simpl. unfold Split.click, Dom.path. simpl.
  unfold Split.listeners at 1. rewrite T, A.
  rewrite split_bubble_plain by exact Pi. simpl.
  unfold Split.listeners at 1. rewrite R, split_overlay_listener.
  unfold Split.is_openable. rewrite T.
  unfold Split.close_click, dismissed. rewrite Hc.
  destruct ctl as [|k].
  - destruct W as (W & E).
    rewrite W, (notes_el_is _ E), (notes_el_overlay _ E). simpl.
    unfold Split.LectureNotesModal.close. now rewrite E.
  - destruct W as (_ & O & N). now rewrite N, O.
Qed.

Lemma split_outside (s : Split.World) :
  split_step ps ls ClickOutside s = dismissed ctl ov s.
Proof.
  destruct layout_s as (_ & _ & T & _).
  simpl. unfold Split.click, Dom.path. simpl.
  unfold Split.listeners at 1. rewrite T, split_overlay_listener.
  unfold Split.is_openable. rewrite T, Nat.eqb_refl. reflexivity.
Qed.

Lemma split_slide (s : Split.World) :
  split_step ps ls ClickSlide s
  = Split.with_presenter (Presenter.next (Split.base ps)) s.
Proof.
  destruct layout_s as (_ & _ & _ & S). simpl. now apply split_click_surface.
Qed.

(** In related states the lecture-notes listener sees its overlay open only
    when it serves the dialog and the dialog is open. *)
Lemma related_notes_open (u : Unified.World) (s : Split.World) :
  related ps ctl ov u s ->
  Split.LectureNotesModal.wired ps && Split.LectureNotesModal.isOpen ps s =
  match ctl with Notes => Split.has_open ov s | Detail _ => false end.
Proof.
  intros (_ & _ & _ & C). destruct wiring_s as (_ & W).
  destruct ctl as [|k].
  - destruct W as (-> & E). unfold Split.LectureNotesModal.isOpen. now rewrite E.
  - apply C.
Qed.

Lemma related_active (u : Unified.World) (s : Split.World) :
  related ps ctl ov u s ->
  Split.activeOverlay s =
  match ctl with
  | Notes => None
  | Detail _ => if Split.has_open ov s then Some ov else None
  end.
Proof. intros (_ & _ & _ & C). destruct ctl; [exact C | apply C]. Qed.

Lemma split_key_closed (key : string) (u : Unified.World) (s : Split.World) :
  related ps ctl ov u s ->
  Split.has_open ov s = false ->
  split_step ps ls (Key key) s
  = Split.with_presenter (Presenter.switch_key (Split.base ps) key) s.
Proof.
  intros R O. simpl. unfold Split.keydown, Split.notes_keydown.
  replace (Split.LectureNotesModal.wired ps && String.eqb key "Escape"
           && Split.LectureNotesModal.isOpen ps s) with false.
  - unfold Split.detail_keydown. rewrite (related_active u s R), O.
    destruct ctl; reflexivity.
  - pose proof (related_notes_open u s R) as N. rewrite O in N.
    destruct (Split.LectureNotesModal.wired ps), (Split.LectureNotesModal.isOpen ps s),
      (String.eqb key "Escape"), ctl; simpl in *; congruence.
Qed.

Lemma split_escape_open (u : Unified.World) (s : Split.World) :
  related ps ctl ov u s ->
  Split.has_open ov s = true ->
  split_step ps ls (Key "Escape") s = dismissed ctl ov s.
Proof.
  intros R O. simpl. unfold Split.keydown, Split.notes_keydown, dismissed.
  pose proof (related_notes_open u s R) as N.
  pose proof (related_active u s R) as A.
  rewrite O in N, A. destruct wiring_s as (_ & W).
  destruct ctl as [|k].
  - destruct W as (W & E). rewrite W in *. simpl in N. rewrite N. simpl.
    unfold Split.LectureNotesModal.close, Split.DetailButtons.close. rewrite E. simpl.
    now rewrite A.
  - replace (Split.LectureNotesModal.wired ps && String.eqb "Escape" "Escape"
             && Split.LectureNotesModal.isOpen ps s) with false
      by (simpl; rewrite andb_true_r; now rewrite N).
    unfold Split.detail_keydown. now rewrite A.
Qed.

(** The relation is kept by each kind of step. *)
Lemma related_with_presenter (f : Presenter.State -> Presenter.State)
    (u : Unified.World) (s : Split.World) :
  related ps ctl ov u s ->
  related ps ctl ov (Unified.with_presenter f u) (Split.with_presenter f s).
Proof.
  intros (P & O & L & C). unfold related. simpl. rewrite P.
  repeat split; try assumption.
Qed.

Lemma notes_open_elsewhere (b : bool) (s : Split.World) :
  Split.LectureNotesModal.wired ps && Split.is_notes_el ps ov = false ->
  Split.LectureNotesModal.wired ps
  && Split.LectureNotesModal.isOpen ps (Split.set_open_class ov b s)
  = Split.LectureNotesModal.wired ps && Split.LectureNotesModal.isOpen ps s.
Proof.
  intros N. destruct (Split.LectureNotesModal.wired ps); [|reflexivity]. simpl in *.
  unfold Split.LectureNotesModal.isOpen, Split.is_notes_el in *.
  destruct (Split.LectureNotesModal.overlay ps) as [j|]; [|reflexivity].
  apply Nat.eqb_neq in N. now rewrite has_open_set_other.
Qed.

Lemma related_dismissed (u : Unified.World) (s : Split.World) :
  related ps ctl ov u s ->
  related ps ctl ov (Unified.close u) (dismissed ctl ov s).
Proof.
  intros R. pose proof R as (P & O & L & C).
  pose proof (related_active u s R) as A.
  destruct wiring_s as (_ & W).
  unfold related, dismissed, Split.DetailButtons.close.
  destruct ctl as [|k].
  - simpl. rewrite A. simpl. rewrite length_insert.
    rewrite has_open_set_same by exact L. auto.
  - destruct W as (_ & _ & N). destruct C as (_ & C).
    rewrite A. destruct (Split.has_open ov s) eqn:H.
    + simpl. rewrite length_insert.
      change (Split.has_open ov
                (Split.set_activeOverlay None (Split.set_open_class ov false s)))
        with (Split.has_open ov (Split.set_open_class ov false s)).
      rewrite has_open_set_same by exact L.
      change (Split.LectureNotesModal.isOpen ps
                (Split.set_activeOverlay None (Split.set_open_class ov false s)))
        with (Split.LectureNotesModal.isOpen ps (Split.set_open_class ov false s)).
      rewrite (notes_open_elsewhere false s N). auto.
    + simpl. rewrite ?H. auto.
Qed.

Lemma related_trigger (u : Unified.World) (s : Split.World) :
  related ps ctl ov u s ->
  related ps ctl ov (unified_step pu lu ClickTrigger u)
    (split_step ps ls ClickTrigger s).
Proof.
  intros R. pose proof R as (P & O & L & C).
  destruct (unified_trigger u) as (Pu & Ou).
  rewrite split_trigger. destruct wiring_s as (_ & W).
  unfold related. rewrite Pu, Ou.
  destruct ctl as [|k].
  - simpl. rewrite length_insert, has_open_set_same by exact L. auto.
  - destruct W as (_ & _ & N). destruct C as (_ & C).
    unfold Split.DetailButtons.open.
    assert (H : Split.has_open ov
                  (Split.set_open_class ov true
                     (Split.set_activeOverlay (Some ov) s)) = true)
      by (apply has_open_set_same; exact L).
    rewrite H. simpl. rewrite length_insert.
    change (Split.LectureNotesModal.isOpen ps
              (Split.set_open_class ov true (Split.set_activeOverlay (Some ov) s)))
      with (Split.LectureNotesModal.isOpen ps (Split.set_open_class ov true s)).
    rewrite (notes_open_elsewhere true s N). auto.
Qed.

(** One input that passes the gate keeps the two variants in step. *)
Lemma step_related (i : Input) (u : Unified.World) (s : Split.World) :
  related ps ctl ov u s ->
  negb (Unified.isOpen u) || dialog_input i = true ->
  related ps ctl ov (unified_step pu lu i u) (split_step ps ls i s).
Proof.
  intros R G. pose proof R as (P & O & L & C).
  destruct i as [| | | |key].
  - now apply related_trigger.
  - rewrite unified_close, split_close. now apply related_dismissed.
  - rewrite unified_outside, split_outside. now apply related_dismissed.
  - simpl in G. rewrite orb_false_r in G. apply negb_true_iff in G.
    rewrite unified_slide by exact G. rewrite split_slide, same_base.
    now apply related_with_presenter.
  - destruct (Unified.isOpen u) eqn:U.
    + simpl in G. apply String.eqb_eq in G. subst key.
      rewrite unified_escape_open by exact U.
      rewrite (split_escape_open u s R) by (rewrite <- O; exact U).
      now apply related_dismissed.
    + change (unified_step pu lu (Key key) u) with (Unified.keydown pu key u).
      rewrite keydown_while_closed by exact U.
      rewrite (split_key_closed key u s R) by (rewrite <- O; exact U).
      rewrite same_base. now apply related_with_presenter.
Qed.

Lemma related_obs (u : Unified.World) (s : Split.World) :
  related ps ctl ov u s -> unified_obs u = split_obs ov s.
Proof.
  intros (P & O & _). unfold unified_obs, split_obs, Unified.isOpen.
  now rewrite P, O.
Qed.

Lemma traces_agree (ins : list Input) (u : Unified.World) (s : Split.World) :
  related ps ctl ov u s ->
  gated pu lu ins u = true ->
  unified_trace pu lu ins u = split_trace ps ls ov ins s.
Proof.
  revert u s. induction ins as [|i ins IH]; intros u s R G; [reflexivity|].
  simpl in G. apply andb_true_iff in G as [Gi G].
  pose proof (step_related i u s R Gi) as R'.
  simpl. rewrite (related_obs _ _ R'). f_equal. now apply IH.
Qed.

End Simulation.

(** Freshly loaded pages correspond when no overlay is open in the markup
    of the split page. *)
Lemma loaded_related (pu : Unified.Page) (ps : Split.Page)
    (ctl : Contract.Controller) (ov : nat) :
  Unified.base pu = Split.base ps ->
  (ov < length (Split.openables ps))%nat ->
  forallb (fun o => negb (Split.open_in_markup o)) (Split.openables ps) = true ->
  Contract.related ps ctl ov (Unified.loaded pu) (Split.loaded ps).
Proof.
  intros B L M.
  assert (C : forall i, Split.has_open i (Split.loaded ps) = false).
  { intros i. unfold Split.has_open, Split.loaded. simpl.
    rewrite list_lookup_fmap.
    destruct (Split.openables ps !! i) as [o|] eqn:E; [|reflexivity]. simpl.
    rewrite forallb_forall in M.
    apply negb_true_iff, M, list_elem_of_In, (list_elem_of_lookup_2 _ i). exact E. }
  unfold Contract.related. rewrite C.
  split; [simpl; now rewrite B|]. split; [reflexivity|].
  split; [unfold Split.loaded; simpl; now rewrite length_map|].
  destruct ctl; [reflexivity|]. split; [reflexivity|].
  unfold Split.LectureNotesModal.isOpen.
  destruct (Split.LectureNotesModal.overlay ps); [rewrite C|];
    apply andb_false_r.
Qed.

(** The overlay that serves the dialog is one of the page's elements. *)
Lemma wiring_in_range (ps : Split.Page) (ctl : Contract.Controller) (ov : nat) :
  Contract.split_wiring ps ctl ov ->
  (ov < length (Split.openables ps))%nat.
Proof.
  intros (C & _). unfold Split.has_notes_close in C.
  destruct (Split.openables ps !! ov) as [o|] eqn:E; [|discriminate].
  now apply lookup_lt_Some in E.
Qed.


Lemma sample_unified_layout :
  Contract.unified_layout Samples.info_page Samples.info_layout.
Proof.
  split; [|split; [reflexivity|split; [reflexivity|]]].
  - exists 0%nat. eexists. eexists.
    split; [reflexivity|]. split; reflexivity.
  - split; [reflexivity|].
    exists [Samples.el "P" [] Unified.Plain].
    exists (Samples.el "DIV" ["slide"] Unified.Slide).
    eexists. split; [reflexivity|]. repeat split.
Qed.

Lemma sample_split_layout (btn : Dom.Element Split.Role)
    (ctl : Contract.Controller) (ov : nat) :
  Dom.role btn
    = match ctl with
      | Contract.Notes => Split.LectureBtn
      | Contract.Detail k => Split.DetailBtn k
      end ->
  Dom.tagName btn = "BUTTON" ->
  Contract.split_layout ctl ov (Samples.split_layout_of btn ov).
Proof.
  intros R T.
  split; [|split; [|split; [reflexivity|]]].
  - split; [exact R|]. split; [|reflexivity].
    unfold Dom.on_control, Dom.has_tag. simpl. rewrite T. reflexivity.
  - split; [reflexivity|].
    exists [Samples.el "DIV" ["notes-content"] Split.Plain].
    eexists. eexists. split; [reflexivity|]. split; reflexivity.
  - split; [reflexivity|].
    exists [Samples.el "P" [] Split.Plain].
    exists (Samples.el "DIV" ["slide"] Split.Slide).
    eexists. split; [reflexivity|]. repeat split.
Qed.



(** The conditions of the agreement are needed.  A detail overlay that is no
    [.notes-overlay] has no click listener and no wired close control: once
    opened, neither the outside click nor the close click closes it. *)
Example detail_overlay_needs_class :
  let ins := [ Contract.ClickTrigger; Contract.ClickOutside;
               Contract.ClickTrigger; Contract.ClickClose ] in
  map fst (Contract.unified_trace Samples.info_page Samples.info_layout ins
             (Unified.loaded Samples.info_page))
    = [true; false; true; false] /\
  map fst (Contract.split_trace Cases.classless_page Samples.detail_layout 1 ins
             (Split.loaded Cases.classless_page))
    = [true; true; true; true].
Proof. split; reflexivity. Qed.

(** An overlay that carries 'open' in the markup is open before any input,
    while the dialog of the unified variant always starts closed. *)
Example open_markup_starts_apart :
  let ins := [ Contract.Key "ArrowUp" ] in
  map fst (Contract.unified_trace Samples.info_page Samples.info_layout ins
             (Unified.loaded Samples.info_page))
    = [false] /\
  map fst (Contract.split_trace Cases.open_markup_page Samples.notes_layout 0 ins
             (Split.loaded Cases.open_markup_page))
    = [true].
Proof. split; reflexivity. Qed.

(* ===================================================================== *)
(** ** Properties kept over whole sessions *)
(* ===================================================================== *)

Section KeySwitch.

Import Presenter.

Variable pg : Page.

(** What one key can call. *)
Lemma switch_key_cases (key : string) (s : State) :
  switch_key pg key s = next pg s \/
  switch_key pg key s = prev pg s \/
  (exists n, switch_key pg key s = goToSlide n s) \/
  switch_key pg key s = goToIndex s \/
  switch_key pg key s = toggleFullscreen s \/
  switch_key pg key s = s.
Proof.
  unfold switch_key.
  repeat (destruct (key_in key _); [eauto 10|]).
  auto 10.
Qed.

(** A property of the presenter that [next()], [prev()], an assignment to
    [window.location.href] and a change of the fullscreen flag keep is kept
    by every key. *)
Lemma switch_key_keeps (P : State -> Prop) :
  (forall s, P s -> P (next pg s)) ->
  (forall s, P s -> P (prev pg s)) ->
  (forall url s, P s -> P (assign_href url s)) ->
  (forall b s, P s -> P (set_fullscreen b s)) ->
  forall key s, P s -> P (switch_key pg key s).
Proof.
  intros Hn Hp Ha Hf key s H.
  destruct (switch_key_cases key s)
    as [E|[E|[[n E]|[E|[E|E]]]]]; rewrite E; auto.
  - rewrite goToSlide_decide. destruct (decide _); auto.
  - unfold goToIndex. auto.
  - unfold toggleFullscreen. destruct (negb _); auto.
Qed.

(** The same for [next()] and [prev()] themselves, from their branches, for
    a property that implies the range of the fragment index. *)
Lemma next_keeps (P : State -> Prop) :
  (forall s, P s -> inv s) ->
  (forall s, P s -> P (updateNav s)) ->
  (forall url s, P s -> P (assign_href url s)) ->
  (forall s, P s ->
     currentFragmentIndex s < length_ s - 1 ->
     P (set_fragments
          (<[Z.to_nat (currentFragmentIndex s + 1) := true]> (fragments s))
          (set_currentFragmentIndex (currentFragmentIndex s + 1) s))) ->
  forall s, P s -> P (next pg s).
Proof.
  intros Hi Hu Ha Hr s H. pose proof (Hi s H) as I. unfold inv in I.
  destruct (Z.lt_ge_cases (currentFragmentIndex s) (length_ s - 1)) as [L|L].
  - rewrite next_reveal by lia. auto.
  - destruct (custom_target pg data_next_slide) as [url|] eqn:C.
    + rewrite (next_custom pg s url L C). auto.
    + rewrite (next_numeric pg s L C). apply Hu.
      destruct (currentSlide s <? totalSlides s); [|exact H].
      rewrite goToSlide_decide. destruct (decide _); auto.
Qed.

Lemma prev_keeps (P : State -> Prop) :
  (forall s, P s -> inv s) ->
  (forall s, P s -> P (updateNav s)) ->
  (forall url s, P s -> P (assign_href url s)) ->
  (forall s, P s ->
     0 <= currentFragmentIndex s ->
     P (set_currentFragmentIndex (currentFragmentIndex s - 1)
          (set_fragments
             (<[Z.to_nat (currentFragmentIndex s) := false]> (fragments s)) s))) ->
  forall s, P s -> P (prev pg s).
Proof.
  intros Hi Hu Ha Hh s H. pose proof (Hi s H) as I. unfold inv in I.
  destruct (Z.lt_ge_cases (currentFragmentIndex s) 0) as [L|L].
  - destruct (custom_target pg data_prev_slide) as [url|] eqn:C.
    + rewrite (prev_custom pg s url L C). auto.
    + rewrite (prev_numeric pg s L C). apply Hu.
      destruct (1 <? currentSlide s); [|exact H].
      rewrite goToSlide_decide. destruct (decide _); auto.
  - rewrite prev_hide by lia. auto.
Qed.

End KeySwitch.

Section Lifting.

Variable P : Presenter.State -> Prop.

(** Clicks, keys and settling promises reach the presenter only through
    [next()] and the key switch. *)
Lemma ububble_keeps (pg : Unified.Page) (ev : Dom.Click Unified.Role)
    (nodes : list (Dom.Element Unified.Role)) (w : Unified.World) :
  (Dom.on_control ev = false ->
   forall s, P s -> P (Presenter.next (Unified.base pg) s)) ->
  P (Unified.presenter w) ->
  P (Unified.presenter (Dom.bubble (Unified.listeners pg ev) nodes w)).
Proof.
  intros Hn. revert w. induction nodes as [|e up IH]; intros w H; [exact H|].
  simpl. unfold Unified.listeners at 1.
  destruct (Dom.role e) as [| | | |k].
  - now apply IH.
  - apply IH. unfold Unified.slide_click.
    destruct (Dom.on_control ev); [exact H|].
    destruct (Unified.isOpen w); [exact H|]. simpl. now apply Hn.
  - destruct (Unified.is_overlay (Dom.target ev)); exact H.
  - exact H.
  - destruct (Unified.info_btns pg !! k) as [btn|]; [|now apply IH].
    now rewrite info_click_presenter.
Qed.

Lemma urun_keeps (pg : Unified.Page) (es : list Session.UEvent)
    (w : Unified.World) :
  (forall s, P s -> P (Presenter.next (Unified.base pg) s)) ->
  (forall key s, P s -> P (Presenter.switch_key (Unified.base pg) key s)) ->
  Unified.handled w ->
  P (Unified.presenter w) ->
  Unified.handled (Session.urun pg es w) /\
  P (Unified.presenter (Session.urun pg es w)).
Proof.
  intros Hn Hk. revert w. induction es as [|e es IH]; intros w Hh H; [auto|].
  change (Session.urun pg (e :: es) w)
    with (Session.urun pg es (Session.ustep pg e w)).
  apply IH; destruct e as [ev|key|o]; simpl.
  - now apply handled_bubble.
  - now apply handled_keydown.
  - now apply settle_handled.
  - apply ububble_keeps; [intros _; exact Hn | exact H].
  - unfold Unified.keydown. rewrite dialog_keydown_presenter.
    unfold Unified.handleKeydown. destruct (Unified.isOpen w); [exact H|].
    simpl. now apply Hk.
  - destruct (settle_handled o w Hh) as (_ & -> & _). exact H.
Qed.

Lemma sbubble_keeps (pg : Split.Page) (ev : Dom.Click Split.Role)
    (nodes : list (Dom.Element Split.Role)) (w : Split.World) :
  (Dom.on_control ev = false ->
   forall s, P s -> P (Presenter.next (Split.base pg) s)) ->
  P (Split.presenter w) ->
  P (Split.presenter (Dom.bubble (Split.listeners pg ev) nodes w)).
Proof.
  intros Hn. revert w. induction nodes as [|e up IH]; intros w H; [exact H|].
  simpl. unfold Split.listeners at 1.
  destruct (Dom.role e) as [| | |k|i|i].
  - now apply IH.
  - apply IH. unfold Split.slide_click.
    destruct (Dom.on_control ev); [exact H|]. simpl. now apply Hn.
  - apply IH. destruct (Split.LectureNotesModal.wired pg); [|exact H].
    unfold Split.LectureNotesModal.open.
    destruct (Split.LectureNotesModal.overlay pg); exact H.
  - destruct (Split.detail_btns pg !! k) as [id|]; apply IH; [|exact H].
    unfold Split.detail_click. destruct (Split.getElementById pg id); exact H.
  - unfold Split.overlay_click.
    assert (Q : P (Split.presenter
                     (if Split.is_notes_overlay pg i
                         && Split.is_openable i (Dom.target ev)
                      then Split.DetailButtons.close
                             (if Split.LectureNotesModal.wired pg
                                 && Split.is_notes_el pg i
                                 && Split.is_openable i (Dom.target ev)
                              then Split.LectureNotesModal.close pg w else w)
                      else
                        if Split.LectureNotesModal.wired pg
                           && Split.is_notes_el pg i
                           && Split.is_openable i (Dom.target ev)
                        then Split.LectureNotesModal.close pg w else w))).
    { destruct (_ && _ && _), (_ && _);
        rewrite ?detail_close_presenter, ?notes_close_presenter; exact H. }
    destruct (_ || _); [exact Q | now apply IH].
  - apply IH. unfold Split.close_click.
    destruct (Split.has_notes_close pg i); [|exact H].
    destruct (_ && _), (Split.is_notes_overlay pg i);
      rewrite ?detail_close_presenter, ?notes_close_presenter; exact H.
Qed.

Lemma srun_keeps (pg : Split.Page) (es : list Session.SEvent)
    (w : Split.World) :
  (forall s, P s -> P (Presenter.next (Split.base pg) s)) ->
  (forall key s, P s -> P (Presenter.switch_key (Split.base pg) key s)) ->
  P (Split.presenter w) ->
  P (Split.presenter (Session.srun pg es w)).
Proof.
  intros Hn Hk. revert w. induction es as [|e es IH]; intros w H; [auto|].
  change (Session.srun pg (e :: es) w)
    with (Session.srun pg es (Session.sstep pg e w)).
  apply IH; destruct e as [ev|key]; simpl.
  - apply sbubble_keeps; [intros _; exact Hn | exact H].
  - unfold Split.keydown, Split.notes_keydown, Split.detail_keydown.
    destruct (_ && _ && _); [now rewrite notes_close_presenter|].
    destruct (Split.activeOverlay w) as [a|].
    + destruct (String.eqb key "Escape").
      * now rewrite detail_close_presenter.
      * simpl. now apply Hk.
    + simpl. now apply Hk.
Qed.

End Lifting.

Section Steady.

Import Presenter.

Variable pg : Page.

Lemma indicator_updateNav (s : State) : Session.indicator_current (updateNav s).
Proof.
  unfold Session.indicator_current, updateNav.
  destruct (slide_number s) eqn:E; simpl; [reflexivity | now rewrite E].
Qed.

Lemma steady_updateNav (s : State) :
  Session.steady pg s -> Session.steady pg (updateNav s).
Proof.
  intros (I & U & T & C & L & _). unfold Session.steady, inv, length_ in *.
  destruct (updateNav_fields s) as (Hi & Hf & _ & Ht & Hc & Hu).
  rewrite Hi, Hf, Ht, Hc, Hu. repeat split; try assumption; try lia.
  apply indicator_updateNav.
Qed.

Lemma steady_assign_href (url : string) (s : State) :
  Session.steady pg s -> Session.steady pg (assign_href url s).
Proof. intros H. exact H. Qed.

Lemma steady_set_fullscreen (b : bool) (s : State) :
  Session.steady pg s -> Session.steady pg (set_fullscreen b s).
Proof. intros H. exact H. Qed.

Lemma steady_next (s : State) :
  Session.steady pg s -> Session.steady pg (next pg s).
Proof.
  apply (next_keeps pg (Session.steady pg)).
  - intros t H. apply H.
  - apply steady_updateNav.
  - apply steady_assign_href.
  - intros t (I & U & T & C & L & N) B.
    unfold Session.steady, Session.indicator_current, inv, length_ in *.
    simpl. rewrite length_insert. repeat split; try assumption; lia.
Qed.

Lemma steady_prev (s : State) :
  Session.steady pg s -> Session.steady pg (prev pg s).
Proof.
  apply (prev_keeps pg (Session.steady pg)).
  - intros t H. apply H.
  - apply steady_updateNav.
  - apply steady_assign_href.
  - intros t (I & U & T & C & L & N) B.
    unfold Session.steady, Session.indicator_current, inv, length_ in *.
    simpl. rewrite length_insert. repeat split; try assumption; lia.
Qed.

Lemma steady_switch_key (key : string) (s : State) :
  Session.steady pg s -> Session.steady pg (switch_key pg key s).
Proof.
  apply (switch_key_keeps pg (Session.steady pg)).
  - apply steady_next.
  - apply steady_prev.
  - apply steady_assign_href.
  - apply steady_set_fullscreen.
Qed.

Lemma steady_constructor : Session.steady pg (constructor pg).
Proof.
  split; [apply constructor_inv|].
  unfold Session.steady, constructor, init.
  destruct (slide_container pg), (slide_el pg); simpl;
    match goal with
    | |- context [updateNav ?s] =>
        pose proof (indicator_updateNav s) as N;
        destruct (updateNav_fields s) as (_ & Hf & _ & _ & _ & Hu)
    end; rewrite ?Hf, ?Hu; simpl; repeat split; exact N.
Qed.

End Steady.

Lemma steady_unified (pg : Unified.Page) (es : list Session.UEvent) :
  Session.steady (Unified.base pg)
    (Unified.presenter (Session.urun pg es (Unified.loaded pg))).
Proof.
  apply (urun_keeps (Session.steady (Unified.base pg)) pg es (Unified.loaded pg)).
  - apply steady_next.
  - intros key s. apply steady_switch_key.
  - apply handled_loaded.
  - apply steady_constructor.
Qed.

Lemma steady_split (pg : Split.Page) (es : list Session.SEvent) :
  Session.steady (Split.base pg)
    (Split.presenter (Session.srun pg es (Split.loaded pg))).
Proof.
  apply (srun_keeps (Session.steady (Split.base pg)) pg es (Split.loaded pg)).
  - apply steady_next.
  - intros key s. apply steady_switch_key.
  - apply steady_constructor.
Qed.

(** X1.  No session makes [next()] or [prev()] throw.  Whatever clicks,
    keys and settled promises follow the page load, in either variant, the
    fragment index stays within [-1, fragments.length - 1], so that
    [this.fragments[this.currentFragmentIndex]] is an element whenever a class
    is added to it or removed from it, and no rejection of a typesetting
    promise is left without handler: the error log stays empty. *)
Theorem sessions_never_throw (pu : Unified.Page) (ues : list Session.UEvent)
    (ps : Split.Page) (ses : list Session.SEvent) :
  Presenter.inv (Unified.presenter (Session.urun pu ues (Unified.loaded pu))) /\
  Presenter.uncaught
    (Unified.presenter (Session.urun pu ues (Unified.loaded pu))) = [] /\
  Presenter.inv (Split.presenter (Session.srun ps ses (Split.loaded ps))) /\
  Presenter.uncaught
    (Split.presenter (Session.srun ps ses (Split.loaded ps))) = [].
Proof.
  destruct (steady_unified pu ues) as (I & U & _).
  destruct (steady_split ps ses) as (I' & U' & _).
  auto.
Qed.

(** X2.  The slide counters are read once.  After any session, in either
    variant, [totalSlides] and [currentSlide] are the values the constructor
    parsed, the presenter still holds every fragment of the page, and the
    [#slide-number] element, when the page has one, reads
    [currentSlide / totalSlides]. *)
Theorem counters_outlive_sessions (pu : Unified.Page)
    (ues : list Session.UEvent) (ps : Split.Page) (ses : list Session.SEvent) :
  let u := Unified.presenter (Session.urun pu ues (Unified.loaded pu)) in
  let s := Split.presenter (Session.srun ps ses (Split.loaded ps)) in
  (Presenter.totalSlides u
     = Presenter.totalSlides (Presenter.constructor (Unified.base pu)) /\
   Presenter.currentSlide u
     = Presenter.currentSlide (Presenter.constructor (Unified.base pu)) /\
   length (Presenter.fragments u)
     = length (Presenter.fragment_els (Unified.base pu)) /\
   Session.indicator_current u)
  /\
  (Presenter.totalSlides s
     = Presenter.totalSlides (Presenter.constructor (Split.base ps)) /\
   Presenter.currentSlide s
     = Presenter.currentSlide (Presenter.constructor (Split.base ps)) /\
   length (Presenter.fragments s)
     = length (Presenter.fragment_els (Split.base ps)) /\
   Session.indicator_current s).
Proof.
  intros u s.
  destruct (steady_unified pu ues) as (_ & _ & T & C & L & N).
  destruct (steady_split ps ses) as (_ & _ & T' & C' & L' & N').
  auto 10.
Qed.

Section Tidy.

Import Presenter.

Variable pg : Page.

Lemma prefix_updateNav (s : State) :
  Session.revealed_prefix s -> Session.revealed_prefix (updateNav s).
Proof.
  unfold Session.revealed_prefix.
  destruct (updateNav_fields s) as (-> & -> & _). auto.
Qed.

Lemma prefix_reveal (s : State) :
  Session.revealed_prefix s ->
  -1 <= currentFragmentIndex s ->
  Session.revealed_prefix
    (set_fragments
       (<[Z.to_nat (currentFragmentIndex s + 1) := true]> (fragments s))
       (set_currentFragmentIndex (currentFragmentIndex s + 1) s)).
Proof.
  unfold Session.revealed_prefix. simpl. intros H I j b.
  destruct (decide (j = Z.to_nat (currentFragmentIndex s + 1))) as [->|N].
  - intros E. apply lookup_lt_Some in E as L. rewrite length_insert in L.
    rewrite list_lookup_insert_eq in E by exact L. injection E as <-.
    symmetry. apply bool_decide_eq_true_2. lia.
  - rewrite list_lookup_insert_ne by congruence. intros E.
    rewrite (H j b E). apply bool_decide_ext. lia.
Qed.

Lemma prefix_hide (s : State) :
  Session.revealed_prefix s ->
  0 <= currentFragmentIndex s ->
  Session.revealed_prefix
    (set_currentFragmentIndex (currentFragmentIndex s - 1)
       (set_fragments
          (<[Z.to_nat (currentFragmentIndex s) := false]> (fragments s)) s)).
Proof.
  unfold Session.revealed_prefix. simpl. intros H I j b.
  destruct (decide (j = Z.to_nat (currentFragmentIndex s))) as [->|N].
  - intros E. apply lookup_lt_Some in E as L. rewrite length_insert in L.
    rewrite list_lookup_insert_eq in E by exact L. injection E as <-.
    symmetry. apply bool_decide_eq_false_2. lia.
  - rewrite list_lookup_insert_ne by congruence. intros E.
    rewrite (H j b E). apply bool_decide_ext. lia.
Qed.

Lemma tidy_next (s : State) : Session.tidy pg s -> Session.tidy pg (next pg s).
Proof.
  apply (next_keeps pg (Session.tidy pg)).
  - intros t H. apply H.
  - intros t (H & R). split; [now apply steady_updateNav | now apply prefix_updateNav].
  - intros url t H. exact H.
  - intros t (H & R) B. pose proof H as (I & U & T & C & L & N).
    split; [|apply prefix_reveal; [exact R | apply I]].
    unfold Session.steady, Session.indicator_current, inv, length_ in *.
    simpl. rewrite length_insert. repeat split; try assumption; lia.
Qed.

Lemma tidy_prev (s : State) : Session.tidy pg s -> Session.tidy pg (prev pg s).
Proof.
  apply (prev_keeps pg (Session.tidy pg)).
  - intros t H. apply H.
  - intros t (H & R). split; [now apply steady_updateNav | now apply prefix_updateNav].
  - intros url t H. exact H.
  - intros t (H & R) B. pose proof H as (I & U & T & C & L & N).
    split; [|apply prefix_hide; [exact R | exact B]].
    unfold Session.steady, Session.indicator_current, inv, length_ in *.
    simpl. rewrite length_insert. repeat split; try assumption; lia.
Qed.

Lemma tidy_switch_key (key : string) (s : State) :
  Session.tidy pg s -> Session.tidy pg (switch_key pg key s).
Proof.
  apply (switch_key_keeps pg (Session.tidy pg)).
  - apply tidy_next.
  - apply tidy_prev.
  - intros url t H. exact H.
  - intros b t H. exact H.
Qed.

Lemma constructor_fields :
  currentFragmentIndex (constructor pg) = -1 /\
  fragments (constructor pg) = fragment_els pg /\
  href (constructor pg) = [].
Proof.
  unfold constructor, init.
  destruct (slide_container pg), (slide_el pg); simpl;
    match goal with
    | |- context [updateNav ?s] =>
        destruct (updateNav_fields s) as (-> & -> & -> & _)
    end; simpl; auto.
Qed.

Lemma tidy_constructor :
  forallb negb (fragment_els pg) = true -> Session.tidy pg (constructor pg).
Proof.
  intros M. split; [apply steady_constructor|].
  unfold Session.revealed_prefix.
  destruct constructor_fields as (-> & -> & _). intros j b E.
  rewrite forallb_forall in M.
  assert (B : negb b = true)
    by (apply M, list_elem_of_In, (list_elem_of_lookup_2 _ j); exact E).
  apply negb_true_iff in B. subst b. symmetry.
  apply bool_decide_eq_false_2. lia.
Qed.

End Tidy.

(** X3.  On a page whose fragments all start hidden, the visible fragments
    are at every moment of every session exactly the fragments up to the
    fragment index: fragment [j] carries 'visible' if and only if
    [j <= currentFragmentIndex].  This holds in both variants. *)
Theorem visible_fragments_form_prefix (pu : Unified.Page)
    (ues : list Session.UEvent) (ps : Split.Page) (ses : list Session.SEvent) :
  forallb negb (Presenter.fragment_els (Unified.base pu)) = true ->
  forallb negb (Presenter.fragment_els (Split.base ps)) = true ->
  let u := Unified.presenter (Session.urun pu ues (Unified.loaded pu)) in
  let s := Split.presenter (Session.srun ps ses (Split.loaded ps)) in
  (forall (j : nat) (b : bool),
     Presenter.fragments u !! j = Some b ->
     b = bool_decide (Z.of_nat j <= Presenter.currentFragmentIndex u)) /\
  (forall (j : nat) (b : bool),
     Presenter.fragments s !! j = Some b ->
     b = bool_decide (Z.of_nat j <= Presenter.currentFragmentIndex s)).
Proof.
  intros Mu Ms u s. split.
  - apply (urun_keeps (Session.tidy (Unified.base pu)) pu ues (Unified.loaded pu)).
    + apply tidy_next.
    + intros key t. apply tidy_switch_key.
    + apply handled_loaded.
    + now apply tidy_constructor.
  - apply (srun_keeps (Session.tidy (Split.base ps)) ps ses (Split.loaded ps)).
    + apply tidy_next.
    + intros key t. apply tidy_switch_key.
    + now apply tidy_constructor.
Qed.

(** Two keys forward, a click on the slide and one key back on the sample
    pages: fragments 0 and 1 are visible, fragment 2 would not be. *)
Lemma visible_fragments_form_prefix_witness :
  let ues := [ Session.UKey "ArrowRight"; Session.UKey "Enter";
               Session.UClick (Contract.surface Samples.info_layout);
               Session.UKey "ArrowLeft"; Session.UKey " " ] in
  let ses := [ Session.SKey "ArrowRight"; Session.SKey "ArrowLeft" ] in
  let u := Unified.presenter
             (Session.urun Samples.info_page ues (Unified.loaded Samples.info_page)) in
  let s := Split.presenter
             (Session.srun Samples.notes_page ses (Split.loaded Samples.notes_page)) in
  Presenter.currentFragmentIndex u = 1 /\
  Presenter.fragments u !! 1%nat = Some true /\
  true = bool_decide (Z.of_nat 1 <= Presenter.currentFragmentIndex u) /\
  Presenter.fragments s !! 0%nat = Some false /\
  false = bool_decide (Z.of_nat 0 <= Presenter.currentFragmentIndex s).
Proof.
  intros ues ses u s.
  pose proof (visible_fragments_form_prefix Samples.info_page ues
                Samples.notes_page ses eq_refl eq_refl) as (Hu & Hs).
  assert (E1 : Presenter.fragments u !! 1%nat = Some true) by reflexivity.
  assert (E0 : Presenter.fragments s !! 0%nat = Some false) by reflexivity.
  split; [reflexivity|]. split; [exact E1|].
  split; [exact (Hu 1%nat true E1)|]. split; [exact E0|].
  exact (Hs 0%nat false E0).
Defined.

(** X4.  [prev()] undoes [next()] and [next()] undoes [prev()] on a slide's
    fragments.  In a state with the index in range and the visible fragments
    forming the prefix up to it: below the last fragment, [next()] followed by
    [prev()] restores fragment index, fragment classes and navigation log; at
    an index of 0 or more, so does [prev()] followed by [next()]. *)
Theorem prev_next_round_trip (pg : Presenter.Page) (s : Presenter.State) :
  Presenter.inv s ->
  Session.revealed_prefix s ->
  (Presenter.currentFragmentIndex s < Presenter.length_ s - 1 ->
   Presenter.observed (Presenter.prev pg (Presenter.next pg s))
   = Presenter.observed s)
  /\
  (0 <= Presenter.currentFragmentIndex s ->
   Presenter.observed (Presenter.next pg (Presenter.prev pg s))
   = Presenter.observed s).
Proof.
  intros I R. pose proof I as I'. unfold Presenter.inv in I'. split.
  - intros B.
    destruct (observed_inj _ s _ _ _ (observed_reveal pg s ltac:(lia)))
      as (Hi & Hf & Hh).
    assert (I1 : Presenter.inv (Presenter.next pg s)) by now apply next_inv.
    rewrite observed_hide
      by (unfold Presenter.inv in I1; rewrite Hi in *; lia).
    rewrite Hi, Hf, Hh, list_insert_insert_eq.
    replace (Presenter.currentFragmentIndex s + 1 - 1)
      with (Presenter.currentFragmentIndex s) by lia.
    unfold Presenter.observed. f_equal. f_equal.
    apply list_insert_id.
    destruct (lookup_lt_is_Some_2 (Presenter.fragments s)
                (Z.to_nat (Presenter.currentFragmentIndex s + 1))) as [b E];
      [unfold Presenter.length_ in *; lia|].
    rewrite E. f_equal. rewrite (R _ _ E).
    apply bool_decide_eq_false_2. lia.
  - intros B.
    destruct (observed_inj _ s _ _ _ (observed_hide pg s ltac:(lia)))
      as (Hi & Hf & Hh).
    assert (L : Presenter.length_ (Presenter.prev pg s) = Presenter.length_ s).
    { unfold Presenter.length_. now rewrite Hf, length_insert. }
    rewrite observed_reveal by (rewrite Hi, L; lia).
    rewrite Hi, Hf, Hh.
    replace (Presenter.currentFragmentIndex s - 1 + 1)
      with (Presenter.currentFragmentIndex s) by lia.
    rewrite list_insert_insert_eq.
    unfold Presenter.observed. f_equal. f_equal.
    apply list_insert_id.
    destruct (lookup_lt_is_Some_2 (Presenter.fragments s)
                (Z.to_nat (Presenter.currentFragmentIndex s))) as [b E];
      [unfold Presenter.length_ in *; lia|].
    rewrite E. f_equal. rewrite (R _ _ E).
    apply bool_decide_eq_true_2. lia.
Qed.

(** One fragment of three revealed: forth and back, and back and forth. *)
Lemma prev_next_round_trip_witness :
  let pg := Samples.deck_page "10" "4" [false; false; false] in
  let s := Presenter.next pg (Presenter.constructor pg) in
  Presenter.inv s /\
  Presenter.observed s = (0, [true; false; false], []) /\
  Presenter.observed (Presenter.prev pg (Presenter.next pg s))
    = Presenter.observed s /\
  Presenter.observed (Presenter.next pg (Presenter.prev pg s))
    = Presenter.observed s.
Proof.
  intros pg s.
  assert (I : Presenter.inv s) by (vm_compute; split; discriminate).
  assert (R : Session.revealed_prefix s).
  { apply (tidy_next pg), tidy_constructor. reflexivity. }
  split; [exact I|]. split; [reflexivity|].
  destruct (prev_next_round_trip pg s I R) as (A & B).
  split; [apply A | apply B]; vm_compute; [reflexivity | discriminate].
Defined.

(* ===================================================================== *)
(** ** Keys *)
(* ===================================================================== *)

Lemma with_presenter_id_u (w : Unified.World) :
  Unified.with_presenter (fun s => s) w = w.
Proof. now destruct w. Qed.

Lemma with_presenter_id_s (w : Split.World) :
  Split.with_presenter (fun s => s) w = w.
Proof. now destruct w. Qed.

Lemma switch_key_unhandled (pg : Presenter.Page) (key : string)
    (s : Presenter.State) :
  Presenter.key_in key Session.handled_keys = false ->
  Presenter.switch_key pg key s = s.
Proof.
  unfold Presenter.key_in, Session.handled_keys. simpl. intros H.
  repeat (apply orb_false_iff in H as [? H]).
  unfold Presenter.switch_key, Presenter.key_in. simpl.
  repeat match goal with E : String.eqb key _ = false |- _ => rewrite E; clear E end.
  reflexivity.
Qed.

(** X5.  A key that is none of ArrowRight, Space, Enter, ArrowLeft,
    Backspace, Home, End, Escape and lower-case f changes nothing at all:
    not in the presenter alone, not on a page of the unified variant with its
    dialog open or closed, not on a page of the split variant with an overlay
    open or closed. *)
Theorem unhandled_key_changes_nothing (key : string)
    (pg : Presenter.Page) (st : Presenter.State)
    (pu : Unified.Page) (u : Unified.World)
    (ps : Split.Page) (s : Split.World) :
  Presenter.key_in key Session.handled_keys = false ->
  Presenter.switch_key pg key st = st /\
  Unified.keydown pu key u = u /\
  Split.keydown ps key s = s.
Proof.
  intros H.
  assert (E : String.eqb key "Escape" = false).
  { unfold Presenter.key_in, Session.handled_keys in H. simpl in H.
    repeat (apply orb_false_iff in H as [? H]). assumption. }
  split; [now apply switch_key_unhandled|]. split.
  - unfold Unified.keydown, Unified.handleKeydown, Unified.dialog_keydown.
    destruct (Unified.isOpen u).
    + now rewrite E.
    + simpl. rewrite E. simpl. destruct u. unfold Unified.with_presenter. simpl.
      now rewrite switch_key_unhandled.
  - unfold Split.keydown, Split.notes_keydown, Split.detail_keydown,
      Split.handleKeydown.
    rewrite E, andb_false_r. simpl.
    destruct (Split.activeOverlay s); destruct s; unfold Split.with_presenter;
      simpl; now rewrite switch_key_unhandled.
Qed.

(** Upper-case F is not the fullscreen key, and ArrowUp is no key of the
    script. *)
Lemma unhandled_key_changes_nothing_witness :
  let u := Unified.click Samples.info_page (Samples.info_btn_click 0)
             (Unified.loaded Samples.info_page) in
  Presenter.key_in "F" Session.handled_keys = false /\
  Unified.keydown Samples.info_page "F" u = u /\
  Split.keydown Samples.notes_page "ArrowUp" (Split.loaded Samples.notes_page)
    = Split.loaded Samples.notes_page.
Proof.
  intros u. split; [reflexivity|]. split.
  - apply (unhandled_key_changes_nothing "F" (Unified.base Samples.info_page)
             (Unified.presenter u) Samples.info_page u Samples.notes_page
             (Split.loaded Samples.notes_page)). reflexivity.
  - apply (unhandled_key_changes_nothing "ArrowUp"
             (Unified.base Samples.info_page) (Unified.presenter u)
             Samples.info_page u Samples.notes_page
             (Split.loaded Samples.notes_page)). reflexivity.
Defined.

(** X6.  In the unified variant no key opens the dialog and only Escape
    closes it: after a keydown the dialog is open exactly if it was open and
    the key is not Escape.  No key changes the title, the body or the pending
    typesetting promises. *)
Theorem keys_only_close_dialog (pg : Unified.Page) (key : string)
    (w : Unified.World) :
  Unified.isOpen (Unified.keydown pg key w)
    = Unified.isOpen w && negb (String.eqb key "Escape") /\
  Unified.dialog_title (Unified.keydown pg key w) = Unified.dialog_title w /\
  Unified.dialog_body (Unified.keydown pg key w) = Unified.dialog_body w /\
  Unified.pending (Unified.keydown pg key w) = Unified.pending w.
Proof.
  unfold Unified.keydown, Unified.handleKeydown, Unified.dialog_keydown,
    Unified.isOpen.
  destruct (Unified.overlay_open w) eqn:O; simpl.
  - rewrite O, andb_true_r. destruct (String.eqb key "Escape"); simpl; auto.
  - rewrite O, andb_false_r. simpl. auto.
Qed.

(** X7.  Home goes to [slide-01.html] and End to the file of the last slide
    exactly when [totalSlides] is at least 1; on a page where it is not (a
    page without slide container has [totalSlides = 0]) both keys leave the
    state as it is.  Neither key looks at the fragments or at the custom
    targets. *)
Theorem home_and_end_keys (pg : Presenter.Page) (s : Presenter.State) :
  Presenter.switch_key pg "Home" s
    = (if decide (1 <= Presenter.totalSlides s)
       then Presenter.assign_href "slide-01.html" s else s) /\
  Presenter.switch_key pg "End" s
    = (if decide (1 <= Presenter.totalSlides s)
       then Presenter.assign_href
              (Presenter.slide_file (Presenter.totalSlides s)) s
       else s).
Proof.
  split.
  - change (Presenter.switch_key pg "Home" s) with (Presenter.goToSlide 1 s).
    rewrite goToSlide_decide.
    repeat destruct (decide _); try reflexivity; lia.
  - change (Presenter.switch_key pg "End" s)
      with (Presenter.goToSlide (Presenter.totalSlides s) s).
    rewrite goToSlide_decide.
    repeat destruct (decide _); try reflexivity; lia.
Qed.

Section Targets.

Import Presenter.

Variable pg : Page.

Lemma goToSlide_target (n : Z) (s : State) :
  href (goToSlide n s) = href s \/
  exists url, href (goToSlide n s) = url :: href s /\
              Session.reachable_target pg s url.
Proof.
  rewrite goToSlide_decide. destruct (decide _) as [R|R]; [|now left].
  right. eexists. split; [reflexivity|].
  unfold Session.reachable_target. eauto 10.
Qed.

Lemma href_updateNav (s : State) : href (updateNav s) = href s.
Proof. apply updateNav_fields. Qed.

Lemma next_target (s : State) :
  href (next pg s) = href s \/
  exists url, href (next pg s) = url :: href s /\
              Session.reachable_target pg s url.
Proof.
  unfold next. destruct (_ <? _).
  - left. destruct (JS.index _ _); [rewrite href_updateNav|]; reflexivity.
  - destruct (custom_target pg data_next_slide) as [url|] eqn:C.
    + right. exists url. split; [reflexivity|].
      unfold Session.reachable_target. auto.
    + rewrite href_updateNav.
      destruct (_ <? _); [apply goToSlide_target | now left].
Qed.

Lemma prev_target (s : State) :
  href (prev pg s) = href s \/
  exists url, href (prev pg s) = url :: href s /\
              Session.reachable_target pg s url.
Proof.
  unfold prev. destruct (_ <=? _).
  - left. destruct (JS.index _ _); [rewrite href_updateNav|]; reflexivity.
  - destruct (custom_target pg data_prev_slide) as [url|] eqn:C.
    + right. exists url. split; [reflexivity|].
      unfold Session.reachable_target. auto.
    + rewrite href_updateNav.
      destruct (_ <? _); [apply goToSlide_target | now left].
Qed.

(** One key assigns [window.location.href] at most once, and then to a
    reachable target. *)
Lemma switch_key_target (key : string) (s : State) :
  href (switch_key pg key s) = href s \/
  exists url, href (switch_key pg key s) = url :: href s /\
              Session.reachable_target pg s url.
Proof.
  destruct (switch_key_cases pg key s)
    as [E|[E|[[n E]|[E|[E|E]]]]]; rewrite E.
  - apply next_target.
  - apply prev_target.
  - apply goToSlide_target.
  - right. exists "index.html". split; [reflexivity | now left].
  - left. unfold toggleFullscreen. destruct (negb _); reflexivity.
  - now left.
Qed.

Lemma target_same_total (s t : State) (url : string) :
  totalSlides s = totalSlides t ->
  Session.reachable_target pg s url -> Session.reachable_target pg t url.
Proof. unfold Session.reachable_target. intros <-. auto. Qed.

Lemma on_course_switch_key (key : string) (s : State) :
  Session.on_course pg s -> Session.on_course pg (switch_key pg key s).
Proof.
  intros (S & F). split; [now apply steady_switch_key|].
  destruct (switch_key_target key s) as [->|(url & -> & R)]; [exact F|].
  constructor; [|exact F].
  apply (target_same_total s); [apply S | exact R].
Qed.

Lemma on_course_next (s : State) :
  Session.on_course pg s -> Session.on_course pg (next pg s).
Proof. apply (on_course_switch_key "ArrowRight"). Qed.

Lemma on_course_constructor : Session.on_course pg (constructor pg).
Proof.
  split; [apply steady_constructor|].
  destruct (constructor_fields pg) as (_ & _ & ->). constructor.
Qed.

End Targets.

(** X8.  The script only ever navigates within the deck.  After any session,
    in either variant, every value that was assigned to
    [window.location.href] is [index.html], the custom next or previous
    target of the slide container, or the file of a slide [n] with
    [1 <= n <= totalSlides]. *)
Theorem sessions_navigate_within_deck (pu : Unified.Page)
    (ues : list Session.UEvent) (ps : Split.Page) (ses : list Session.SEvent) :
  Forall
    (Session.reachable_target (Unified.base pu)
       (Presenter.constructor (Unified.base pu)))
    (Presenter.href
       (Unified.presenter (Session.urun pu ues (Unified.loaded pu))))
  /\
  Forall
    (Session.reachable_target (Split.base ps)
       (Presenter.constructor (Split.base ps)))
    (Presenter.href
       (Split.presenter (Session.srun ps ses (Split.loaded ps)))).
Proof.
  split.
  - apply (urun_keeps (Session.on_course (Unified.base pu)) pu ues
             (Unified.loaded pu)).
    + apply on_course_next.
    + intros key s. apply on_course_switch_key.
    + apply handled_loaded.
    + apply on_course_constructor.
  - apply (srun_keeps (Session.on_course (Split.base ps)) ps ses
             (Split.loaded ps)).
    + apply on_course_next.
    + intros key s. apply on_course_switch_key.
    + apply on_course_constructor.
Qed.

(* ===================================================================== *)
(** ** Clicks *)
(* ===================================================================== *)

Lemma existsb_orb {A} (f g : A -> bool) (l : list A) :
  existsb (fun x => f x || g x) l = existsb f l || existsb g l.
Proof.
  induction l as [|x l IH]; [reflexivity|]. simpl. rewrite IH.
  destruct (f x), (g x), (existsb f l), (existsb g l); reflexivity.
Qed.

(** The guard of the slide's click listener is one walk up from the target:
    the two tests of the target's own tag name add nothing. *)
Lemma on_control_closest {R} (ev : Dom.Click R) :
  Dom.on_control ev = existsb Session.is_control (Dom.path ev).
Proof.
  unfold Session.is_control. rewrite !existsb_orb.
  unfold Dom.on_control, Dom.closest, Dom.path. simpl.
  destruct (Dom.has_tag "A" (Dom.target ev)),
    (Dom.has_tag "BUTTON" (Dom.target ev)),
    (Dom.has_class "home-btn" (Dom.target ev)),
    (existsb (Dom.has_tag "A") (Dom.ancestors ev)),
    (existsb (Dom.has_tag "BUTTON") (Dom.ancestors ev)),
    (existsb (Dom.has_class "home-btn") (Dom.ancestors ev)); reflexivity.
Qed.

(** X9.  A click on a link, a button or the home button, or on anything
    inside one of them, never advances the slide: in both variants the
    presenter is after the click as it was before, whatever else the click
    does to the dialog or the overlays.  The guard amounts to one test,
    whether the target or one of its ancestors is an [A], a [BUTTON] or a
    [.home-btn]. *)
Theorem control_clicks_never_advance
    (pu : Unified.Page) (evu : Dom.Click Unified.Role) (u : Unified.World)
    (ps : Split.Page) (evs : Dom.Click Split.Role) (s : Split.World) :
  Dom.on_control evu = existsb Session.is_control (Dom.path evu) /\
  Dom.on_control evs = existsb Session.is_control (Dom.path evs) /\
  (existsb Session.is_control (Dom.path evu) = true ->
   Unified.presenter (Unified.click pu evu u) = Unified.presenter u) /\
  (existsb Session.is_control (Dom.path evs) = true ->
   Split.presenter (Split.click ps evs s) = Split.presenter s).
Proof.
  split; [apply on_control_closest|]. split; [apply on_control_closest|].
  split; intros C; rewrite <- on_control_closest in C.
  - apply (ububble_keeps (fun p => p = Unified.presenter u)); [|reflexivity].
    intros F. congruence.
  - apply (sbubble_keeps (fun p => p = Split.presenter s)); [|reflexivity].
    intros F. congruence.
Qed.

(** A click on a link inside the slide, and a click on the lecture-notes
    button of the split page. *)
Lemma control_clicks_never_advance_witness :
  let evu := {| Dom.target := Samples.el "SPAN" [] Unified.Plain;
                Dom.ancestors :=
                  Samples.el "A" ["ref"] Unified.Plain :: Samples.info_shell |} in
  let evs := Contract.trigger Samples.notes_layout in
  let u := Unified.loaded Samples.info_page in
  let s := Split.loaded Samples.notes_page in
  existsb Session.is_control (Dom.path evu) = true /\
  Unified.presenter (Unified.click Samples.info_page evu u)
    = Unified.presenter u /\
  existsb Session.is_control (Dom.path evs) = true /\
  Split.presenter (Split.click Samples.notes_page evs s) = Split.presenter s /\
  Split.LectureNotesModal.isOpen Samples.notes_page
    (Split.click Samples.notes_page evs s) = true.
Proof.
  intros evu evs u s.
  destruct (control_clicks_never_advance Samples.info_page evu u
              Samples.notes_page evs s) as (_ & _ & A & B).
  split; [reflexivity|]. split; [apply A; reflexivity|].
  split; [reflexivity|]. split; [apply B; reflexivity | reflexivity].
Defined.

(** X10.  A click on an info button, or on an element inside of it, whose
    dialog id names an element opens the dialog with that element's
    [innerHTML] as body and its [data-title] as title; when [data-title] is
    missing or empty the title is the button's own text.  The element is the
    first one of the page with that id.  The click stops at the button: the
    presenter is untouched, whatever the button's tag and wherever it sits. *)
Theorem info_click_fills_dialog (pg : Unified.Page)
    (ev : Dom.Click Unified.Role)
    (inner outer : list (Dom.Element Unified.Role))
    (b : Dom.Element Unified.Role) (k : nat) (btn : Unified.InfoBtn)
    (t : Unified.Target) (w : Unified.World) :
  Dom.path ev = (inner ++ b :: outer)%list ->
  forallb Unified.is_plain inner = true ->
  Dom.role b = Unified.InfoBtnEl k ->
  Unified.info_btns pg !! k = Some btn ->
  Unified.getElementById pg (Unified.to_id (Unified.data_dialog btn)) = Some t ->
  Unified.isOpen (Unified.click pg ev w) = true /\
  Unified.dialog_body (Unified.click pg ev w) = Unified.innerHTML t /\
  Unified.dialog_title (Unified.click pg ev w)
    = match Unified.data_title t with
      | Some "" | None => Unified.textContent btn
      | Some title => title
      end /\
  Unified.presenter (Unified.click pg ev w) = Unified.presenter w /\
  In t (Unified.elements pg) /\
  Unified.el_id t = Unified.to_id (Unified.data_dialog btn).
Proof.
  intros P I T B G.
  assert (E : Unified.click pg ev w
              = Unified.open pg
                  (JS.or_string (Unified.data_title t) (Unified.textContent btn))
                  (Unified.innerHTML t) w).
  { unfold Unified.click. rewrite P, bubble_plain by exact I.
    simpl. unfold Unified.listeners. rewrite T, B.
    unfold Unified.info_click. now rewrite G. }
  rewrite E.
  destruct (open_fields pg
              (JS.or_string (Unified.data_title t) (Unified.textContent btn))
              (Unified.innerHTML t) w) as (Hp & Ho & Ht & Hb).
  unfold Unified.isOpen. rewrite Hp, Ho, Ht, Hb.
  split; [reflexivity|]. split; [reflexivity|].
  split; [|split; [reflexivity|split]].
  - unfold JS.or_string. destruct (Unified.data_title t) as [[|c r]|]; reflexivity.
  - unfold Unified.getElementById in G.
    destruct (String.eqb _ ""); [discriminate|].
    now apply find_some in G.
  - unfold Unified.getElementById in G.
    destruct (String.eqb _ ""); [discriminate|].
    apply find_some in G as [_ G]. now apply String.eqb_eq in G.
Qed.

(** The first info button of the sample page. *)
Lemma info_click_fills_dialog_witness :
  let w := Unified.click Samples.info_page (Samples.info_btn_click 0)
             (Unified.loaded Samples.info_page) in
  Unified.isOpen w = true /\
  Unified.dialog_title w = "Lecture notes" /\
  Unified.dialog_body w = "<p>Parallel trends</p>" /\
  Unified.presenter w = Unified.presenter (Unified.loaded Samples.info_page).
Proof.
  intros w.
  destruct (info_click_fills_dialog Samples.info_page
              (Samples.info_btn_click 0) [] Samples.info_shell
              (Samples.el "BUTTON" ["info-btn"] (Unified.InfoBtnEl 0)) 0
              {| Unified.data_dialog := Some "notes";
                 Unified.textContent := "Notes" |}
              {| Unified.el_id := "notes";
                 Unified.data_title := Some "Lecture notes";
                 Unified.innerHTML := "<p>Parallel trends</p>" |}
              (Unified.loaded Samples.info_page)
              eq_refl eq_refl eq_refl eq_refl eq_refl)
    as (O & B & T & P & _).
  auto.
Defined.

(** X11.  A click inside the dialog, on anything but the close button, does
    nothing: the overlay's listener stops it and closes only when the target
    is the overlay itself.  The dialog stays as it is and the slide does not
    advance, whatever lies above the overlay. *)
Theorem click_inside_dialog_is_inert (pg : Unified.Page)
    (ev : Dom.Click Unified.Role)
    (inner outer : list (Dom.Element Unified.Role))
    (o : Dom.Element Unified.Role) (w : Unified.World) :
  Dom.path ev = (inner ++ o :: outer)%list ->
  inner <> [] ->
  forallb Unified.is_plain inner = true ->
  Dom.role o = Unified.Overlay ->
  Unified.click pg ev w = w.
Proof.
  intros P N I O.
  assert (T : Unified.is_overlay (Dom.target ev) = false).
  { destruct inner as [|e inner]; [congruence|].
    unfold Dom.path in P. simpl in P. injection P as -> _.
    simpl in I. apply andb_true_iff in I as [I _].
    unfold Unified.is_plain in I. unfold Unified.is_overlay.
    destruct (Dom.role e); (discriminate || reflexivity). }
  unfold Unified.click. rewrite P, bubble_plain by exact I.
  simpl. unfold Unified.listeners. now rewrite O, T.
Qed.

(** A click on the text of the open dialog. *)
Lemma click_inside_dialog_is_inert_witness :
  let w := Unified.click Samples.info_page (Samples.info_btn_click 0)
             (Unified.loaded Samples.info_page) in
  let ev := {| Dom.target := Samples.el "P" [] Unified.Plain;
               Dom.ancestors :=
                 [ Samples.el "DIV" ["dialog-body"] Unified.Plain;
                   Samples.el "DIV" ["info-dialog"] Unified.Plain;
                   Samples.info_overlay;
                   Samples.el "DIV" ["slide"] Unified.Slide ] |} in
  Unified.isOpen w = true /\ Unified.click Samples.info_page ev w = w.
Proof.
  intros w ev. split; [reflexivity|].
  apply (click_inside_dialog_is_inert Samples.info_page ev
           [ Samples.el "P" [] Unified.Plain;
             Samples.el "DIV" ["dialog-body"] Unified.Plain;
             Samples.el "DIV" ["info-dialog"] Unified.Plain ]
           [ Samples.el "DIV" ["slide"] Unified.Slide ]
           Samples.info_overlay w);
    [reflexivity | discriminate | reflexivity | reflexivity].
Defined.

(** X12.  Only info buttons open the dialog and fill it.  A click whose path
    holds no info button leaves title and body as they are and does not open
    the dialog: if the dialog is open afterwards, it was open before. *)
Theorem only_info_buttons_open (pg : Unified.Page)
    (ev : Dom.Click Unified.Role) (w : Unified.World) :
  existsb Session.is_info_btn (Dom.path ev) = false ->
  Unified.dialog_title (Unified.click pg ev w) = Unified.dialog_title w /\
  Unified.dialog_body (Unified.click pg ev w) = Unified.dialog_body w /\
  (Unified.isOpen (Unified.click pg ev w) = true -> Unified.isOpen w = true).
Proof.
  unfold Unified.click. generalize (Dom.path ev) as nodes.
  intros nodes. revert w.
  induction nodes as [|e up IH]; intros w N; [auto|].
  simpl in N. apply orb_false_iff in N as [Ne N].
  simpl. unfold Unified.listeners at 1 3 5. unfold Session.is_info_btn in Ne.
  destruct (Dom.role e) as [| | | |k]; try discriminate.
  - now apply IH.
  - destruct (IH (Unified.slide_click pg ev w) N) as (T & B & O).
    unfold Unified.slide_click in *.
    destruct (Dom.on_control ev); [auto|].
    destruct (Unified.isOpen w) eqn:Ow; [auto|].
    rewrite T, B. repeat split. intros H. apply O in H.
    unfold Unified.isOpen in *. simpl in H. congruence.
  - destruct (Unified.is_overlay (Dom.target ev)); simpl; auto.
    repeat split. unfold Unified.isOpen. simpl. discriminate.
  - simpl. repeat split. unfold Unified.isOpen. simpl. discriminate.
Qed.

(** A click on the slide surface of the sample page. *)
Lemma only_info_buttons_open_witness :
  let w := Unified.loaded Samples.info_page in
  let ev := Contract.surface Samples.info_layout in
  Unified.isOpen (Unified.click Samples.info_page ev w) = false /\
  Unified.dialog_body (Unified.click Samples.info_page ev w) = "".
Proof.
  intros w ev.
  destruct (only_info_buttons_open Samples.info_page ev w eq_refl)
    as (_ & B & O).
  split; [|rewrite B; reflexivity].
  destruct (Unified.isOpen (Unified.click Samples.info_page ev w)) eqn:E;
    [|reflexivity].
  discriminate (O eq_refl).
Defined.

(* ===================================================================== *)
(** ** The controllers of the split variant *)
(* ===================================================================== *)

(** X13.  DetailButtons tracks one overlay, the one opened last.  Opening
    overlay [b] while overlay [a] is open leaves both with the class 'open'
    and makes [b] the active one; [close()] then closes [b] only.  Overlay
    [a] stays open with no controller tracking it: a further [close()] does
    nothing, and the capture listener of DetailButtons lets Escape pass. *)
Theorem detail_buttons_track_latest (a b : nat) (w : Split.World) :
  a <> b ->
  (a < length (Split.open_class w))%nat ->
  (b < length (Split.open_class w))%nat ->
  let w2 := Split.DetailButtons.open b (Split.DetailButtons.open a w) in
  let w3 := Split.DetailButtons.close w2 in
  (Split.has_open a w2 = true /\ Split.has_open b w2 = true /\
   Split.activeOverlay w2 = Some b) /\
  (Split.has_open a w3 = true /\ Split.has_open b w3 = false /\
   Split.activeOverlay w3 = None) /\
  Split.DetailButtons.close w3 = w3 /\
  Split.detail_keydown "Escape" w3 = (w3, false).
Proof.
  intros N La Lb w2 w3.
  set (oc := Split.open_class w) in *.
  assert (E1 : <[a:=true]> oc !! a = Some true)
    by now apply list_lookup_insert_eq.
  assert (E2 : <[b:=true]> (<[a:=true]> oc) !! b = Some true)
    by (apply list_lookup_insert_eq; rewrite length_insert; exact Lb).
  assert (E3 : <[b:=false]> (<[b:=true]> (<[a:=true]> oc)) !! a = Some true)
    by (rewrite !(list_lookup_insert_ne _ b a) by congruence; exact E1).
  assert (E4 : <[b:=false]> (<[b:=true]> (<[a:=true]> oc)) !! b = Some false)
    by (apply list_lookup_insert_eq; rewrite !length_insert; exact Lb).
  unfold w3, w2, Split.DetailButtons.close, Split.DetailButtons.open,
    Split.detail_keydown, Split.has_open. simpl. fold oc.
  rewrite (list_lookup_insert_ne _ b a) by congruence.
  rewrite E1, E2, E3, E4. repeat split.
Qed.

(** Both detail buttons of the sample page clicked in turn. *)
Lemma detail_buttons_track_latest_witness :
  let pg := Cases.shared_page in
  let w2 := Split.click pg (Cases.detail_btn_click 1)
              (Split.click pg (Cases.detail_btn_click 0) (Split.loaded pg)) in
  w2 = Split.DetailButtons.open 1 (Split.DetailButtons.open 0 (Split.loaded pg)) /\
  Split.has_open 0 (Split.DetailButtons.close w2) = true /\
  Split.activeOverlay (Split.DetailButtons.close w2) = None.
Proof.
  intros pg w2.
  assert (E : w2 = Split.DetailButtons.open 1
                     (Split.DetailButtons.open 0 (Split.loaded pg)))
    by reflexivity.
  split; [exact E|]. rewrite E.
  destruct (detail_buttons_track_latest 0 1 (Split.loaded pg))
    as (_ & (A & _ & C) & _); [discriminate | simpl; lia | simpl; lia |].
  auto.
Defined.

(** X14.  A detail button that names the lecture-notes overlay leaves a
    stale reference behind.  With that overlay open and active, Escape is
    taken by LectureNotesModal, which closes the overlay and stops the event
    before DetailButtons sees it: [activeOverlay] still points at the closed
    overlay.  A second Escape is taken by DetailButtons, which clears the
    reference, and again does not reach the presenter.  Only the third
    Escape opens the index page. *)
Theorem shared_overlay_swallows_escape (pg : Split.Page) (ov : nat)
    (w : Split.World) :
  Split.LectureNotesModal.wired pg = true ->
  Split.LectureNotesModal.overlay pg = Some ov ->
  Split.activeOverlay w = Some ov ->
  Split.has_open ov w = true ->
  let w1 := Split.keydown pg "Escape" w in
  let w2 := Split.keydown pg "Escape" w1 in
  (Split.has_open ov w1 = false /\ Split.activeOverlay w1 = Some ov /\
   Split.presenter w1 = Split.presenter w) /\
  (Split.has_open ov w2 = false /\ Split.activeOverlay w2 = None /\
   Split.presenter w2 = Split.presenter w) /\
  Split.keydown pg "Escape" w2 = Split.with_presenter Presenter.goToIndex w2.
Proof.
  intros W O A H w1 w2.
  assert (L : (ov < length (Split.open_class w))%nat).
  { unfold Split.has_open in H.
    destruct (Split.open_class w !! ov) eqn:E; [|discriminate].
    now apply lookup_lt_Some in E. }
  assert (E1 : w1 = Split.set_open_class ov false w).
  { unfold w1, Split.keydown, Split.notes_keydown,
      Split.LectureNotesModal.isOpen, Split.LectureNotesModal.close.
    rewrite W, O, H. reflexivity. }
  assert (H1 : Split.has_open ov w1 = false)
    by (rewrite E1; now apply has_open_set_same).
  assert (E2 : w2 = Split.set_activeOverlay None
                      (Split.set_open_class ov false w1)).
  { unfold w2, Split.keydown, Split.notes_keydown,
      Split.LectureNotesModal.isOpen.
    rewrite W, O, H1. simpl. unfold Split.detail_keydown.
    rewrite E1. simpl. rewrite A. simpl.
    unfold Split.DetailButtons.close. simpl. now rewrite A. }
  assert (H2 : Split.has_open ov w2 = false).
  { rewrite E2.
    change (Split.has_open ov (Split.set_open_class ov false w1) = false).
    apply has_open_set_same. rewrite E1. simpl. now rewrite length_insert. }
  split; [|split].
  - rewrite E1 at 2 3. simpl. auto.
  - rewrite E2 at 2 3. rewrite E1. simpl. auto.
  - unfold Split.keydown, Split.notes_keydown, Split.LectureNotesModal.isOpen.
    rewrite W, O, H2. simpl. unfold Split.detail_keydown.
    rewrite E2 at 1. reflexivity.
Qed.

(** The first detail button of the sample page names the lecture-notes
    overlay. *)
Lemma shared_overlay_swallows_escape_witness :
  let pg := Cases.shared_page in
  let w := Split.click pg (Cases.detail_btn_click 0) (Split.loaded pg) in
  let w2 := Split.keydown pg "Escape" (Split.keydown pg "Escape" w) in
  Split.has_open 0 w = true /\
  Presenter.href (Split.presenter w2) = [] /\
  Presenter.href (Split.presenter (Split.keydown pg "Escape" w2))
    = ["index.html"].
Proof.
  intros pg w w2.
  destruct (shared_overlay_swallows_escape pg 0 w eq_refl eq_refl eq_refl eq_refl)
    as (_ & (_ & _ & P) & E).
  split; [reflexivity|]. fold w2 in P, E.
  split; [rewrite P; reflexivity | rewrite E; reflexivity].
Defined.

(** X15.  The triggers of the split variant do not stop their click.  A
    click on the lecture-notes button, or on a detail button whose overlay
    exists, opens the overlay and then bubbles on to the slide: unless the
    trigger is, or sits inside, a link, a button or the home button, the same
    click also runs [next()]. *)
Theorem split_trigger_click_bubbles (pg : Split.Page)
    (ev : Dom.Click Split.Role)
    (inner outer : list (Dom.Element Split.Role))
    (sl : Dom.Element Split.Role) (w : Split.World) :
  Dom.ancestors ev = (inner ++ sl :: outer)%list ->
  forallb Split.is_plain inner = true ->
  Split.is_slide sl = true ->
  forallb Split.is_plain outer = true ->
  let advance (x : Split.World) :=
    if Dom.on_control ev then x
    else Split.with_presenter (Presenter.next (Split.base pg)) x in
  (Dom.role (Dom.target ev) = Split.LectureBtn ->
   Split.LectureNotesModal.wired pg = true ->
   Split.click pg ev w = advance (Split.LectureNotesModal.open pg w))
  /\
  (forall k id overlay,
     Dom.role (Dom.target ev) = Split.DetailBtn k ->
     Split.detail_btns pg !! k = Some id ->
     Split.getElementById pg id = Some overlay ->
     Split.click pg ev w = advance (Split.DetailButtons.open overlay w)).
Proof.
  intros A Pi S Po advance.
  assert (B : forall x,
             Dom.bubble (Split.listeners pg ev) (Dom.ancestors ev) x = advance x).
  { intros x. rewrite A, split_bubble_plain by exact Pi.
    simpl. unfold Split.listeners at 1. unfold Split.is_slide in S.
    destruct (Dom.role sl); try discriminate.
    unfold Split.slide_click, advance.
    rewrite <- (app_nil_r outer), split_bubble_plain by exact Po.
    simpl. destruct (Dom.on_control ev); reflexivity. }
  split.
  - intros T W. unfold Split.click, Dom.path. simpl.
    unfold Split.listeners at 1. rewrite T, W. apply B.
  - intros k id overlay T D G. unfold Split.click, Dom.path. simpl.
    unfold Split.listeners at 1. rewrite T, D.
    unfold Split.detail_click. rewrite G. apply B.
Qed.

(** A lecture-notes trigger that is a [DIV] inside the slide: one click
    opens the notes and reveals the first fragment. *)
Lemma split_trigger_click_bubbles_witness :
  let pg := Samples.notes_page in
  let w := Split.click pg Cases.div_trigger_click (Split.loaded pg) in
  Split.LectureNotesModal.isOpen pg w = true /\
  Presenter.observed (Split.presenter w) = (0, [true; false], []).
Proof.
  intros pg w.
  destruct (split_trigger_click_bubbles pg Cases.div_trigger_click []
              [ Samples.el "DIV" ["slide-container"] Split.Plain;
                Samples.el "BODY" [] Split.Plain;
                Samples.el "HTML" [] Split.Plain ]
              (Samples.el "DIV" ["slide"] Split.Slide) (Split.loaded pg)
              eq_refl eq_refl eq_refl eq_refl) as (A & _).
  unfold w. rewrite (A eq_refl eq_refl). split; reflexivity.
Defined.

(** Every click listener of the split variant but the slide's leaves the
    presenter alone. *)
Lemma split_listener_presenter (pg : Split.Page) (ev : Dom.Click Split.Role)
    (e : Dom.Element Split.Role) (x : Split.World) :
  Split.is_slide e = false ->
  Split.presenter (fst (Split.listeners pg ev e x)) = Split.presenter x.
Proof.
  intros S. unfold Split.listeners. unfold Split.is_slide in S.
  destruct (Dom.role e) as [| | |k|i|i]; try discriminate; simpl.
  - reflexivity.
  - destruct (Split.LectureNotesModal.wired pg); [|reflexivity].
    unfold Split.LectureNotesModal.open.
    destruct (Split.LectureNotesModal.overlay pg); reflexivity.
  - destruct (Split.detail_btns pg !! k) as [id|]; [|reflexivity]. simpl.
    unfold Split.detail_click. destruct (Split.getElementById pg id); reflexivity.
  - unfold Split.overlay_click. simpl.
    destruct (_ && _ && _), (_ && _);
      rewrite ?detail_close_presenter, ?notes_close_presenter; reflexivity.
  - unfold Split.close_click.
    destruct (Split.has_notes_close pg i); [|reflexivity].
    destruct (_ && _), (Split.is_notes_overlay pg i);
      rewrite ?detail_close_presenter, ?notes_close_presenter; reflexivity.
Qed.

(** X16.  A click that lands inside a [.notes-overlay], on the overlay
    itself, on its close control or on its content, never reaches the slide:
    the overlay's listener stops the propagation, so that no listener above
    the overlay runs and the presenter is as it was. *)
Theorem split_overlay_clicks_stop (pg : Split.Page)
    (ev : Dom.Click Split.Role)
    (inner outer : list (Dom.Element Split.Role))
    (o : Dom.Element Split.Role) (i : nat) (w : Split.World) :
  Dom.path ev = (inner ++ o :: outer)%list ->
  forallb Session.inside_overlay inner = true ->
  Dom.role o = Split.OpenableEl i ->
  Split.is_notes_overlay pg i = true ->
  Split.presenter (Split.click pg ev w) = Split.presenter w /\
  Split.click pg ev w = Dom.bubble (Split.listeners pg ev) (inner ++ [o]) w.
Proof.
  intros P I O N. unfold Split.click. rewrite P. clear P. revert w.
  induction inner as [|e inner IH]; intros w.
  - assert (S : Split.is_slide o = false)
      by (unfold Split.is_slide; now rewrite O).
    pose proof (split_listener_presenter pg ev o w S) as Q.
    assert (T : snd (Split.listeners pg ev o w) = true).
    { unfold Split.listeners. rewrite O. unfold Split.overlay_click. simpl.
      rewrite N. apply orb_true_r. }
    simpl. destruct (Split.listeners pg ev o w) as [w' stop].
    simpl in Q, T. subst stop. auto.
  - simpl in I. apply andb_true_iff in I as [Ie I]. specialize (IH I).
    assert (S : Split.is_slide e = false).
    { unfold Session.inside_overlay in Ie. unfold Split.is_slide.
      destruct (Dom.role e); (discriminate || reflexivity). }
    pose proof (split_listener_presenter pg ev e w S) as Q.
    simpl. destruct (Split.listeners pg ev e w) as [w' stop]. simpl in Q.
    destruct stop; [auto|].
    destruct (IH w') as (A & B). rewrite A, Q. auto.
Qed.


(** The close control of the open lecture notes: the notes close and the
    slide stays. *)
Lemma split_overlay_clicks_stop_witness :
  let pg := Samples.notes_page in
  let w := Split.click pg (Contract.trigger Samples.notes_layout)
             (Split.loaded pg) in
  let ev := Contract.close_control Samples.notes_layout in
  Split.LectureNotesModal.isOpen pg w = true /\
  Split.presenter (Split.click pg ev w) = Split.presenter w /\
  Split.LectureNotesModal.isOpen pg (Split.click pg ev w) = false.
Proof.
  intros pg w ev.
  destruct (split_overlay_clicks_stop pg ev
              [ Samples.el "BUTTON" ["notes-close"] (Split.NotesClose 0);
                Samples.el "DIV" ["notes-content"] Split.Plain ]
              [ Samples.el "BODY" [] Split.Plain;
                Samples.el "HTML" [] Split.Plain ]
              (Samples.el "DIV" ["notes-overlay"] (Split.OpenableEl 0)) 0 w
              eq_refl eq_refl eq_refl eq_refl) as (P & _).
  split; [reflexivity|]. split; [exact P | reflexivity].
Defined.

(** X17.  LectureNotesModal wires nothing unless the page has both a
    [.notes-overlay] and a [.lecture-notes-btn].  On a page that lacks one of
    them a click on the button does nothing of its own, and with no detail
    overlay active every key, Escape included, goes to the presenter's
    switch, also while a notes overlay is open. *)
Theorem unwired_notes_do_nothing (pg : Split.Page) (w : Split.World) :
  Split.LectureNotesModal.wired pg = false ->
  (Split.LectureNotesModal.overlay pg = None \/
   Split.lecture_notes_btn pg = false) /\
  (forall ev : Dom.Click Split.Role,
     Dom.role (Dom.target ev) = Split.LectureBtn ->
     Split.click pg ev w
     = Dom.bubble (Split.listeners pg ev) (Dom.ancestors ev) w) /\
  (forall key,
     Split.activeOverlay w = None ->
     Split.keydown pg key w
     = Split.with_presenter (Presenter.switch_key (Split.base pg) key) w).
Proof.
  intros W. split; [|split].
  - unfold Split.LectureNotesModal.wired in W.
    destruct (Split.LectureNotesModal.overlay pg); auto.
  - intros ev T. unfold Split.click, Dom.path. simpl.
    unfold Split.listeners at 1. now rewrite T, W.
  - intros key A. unfold Split.keydown, Split.notes_keydown,
      Split.detail_keydown, Split.handleKeydown.
    rewrite W. simpl. now rewrite A.
Qed.

(** A page with an open notes overlay and no button: Escape opens the index
    page and the overlay stays open. *)
Lemma unwired_notes_do_nothing_witness :
  let pg := Cases.buttonless_page in
  let w := Split.loaded pg in
  Split.LectureNotesModal.wired pg = false /\
  Split.has_open 0 w = true /\
  Presenter.href (Split.presenter (Split.keydown pg "Escape" w))
    = ["index.html"] /\
  Split.has_open 0 (Split.keydown pg "Escape" w) = true.
Proof.
  intros pg w.
  assert (W : Split.LectureNotesModal.wired pg = false) by reflexivity.
  destruct (unwired_notes_do_nothing pg w W) as (_ & _ & K).
  split; [exact W|]. split; [reflexivity|].
  rewrite (K "Escape" eq_refl). split; reflexivity.
Defined.

(* ===================================================================== *)
(** ** Slide file names *)
(* ===================================================================== *)

Lemma string_app_inv_tail (a b t : string) : a ++ t = b ++ t -> a = b.
Proof.
  revert b. induction a as [|c a IH]; intros b H.
  - destruct b as [|d b]; [reflexivity|].
    apply (f_equal String.length) in H. simpl in H.
    rewrite string_length_app in H. lia.
  - destruct b as [|d b].
    + apply (f_equal String.length) in H. simpl in H.
      rewrite string_length_app in H. lia.
    + simpl in H. injection H as -> H. f_equal. now apply IH.
Qed.

Lemma nzhead_no_D0 (d d' : Decimal.uint) : Decimal.nzhead d <> Decimal.D0 d'.
Proof. induction d; simpl; try discriminate. exact IHd. Qed.

Lemma to_uint_no_D0 (p : positive) (d : Decimal.uint) :
  Pos.to_uint p <> Decimal.D0 d.
Proof.
  intros E.
  pose proof (DecimalPos.Unsigned.to_of (Pos.to_uint p)) as H.
  rewrite DecimalPos.Unsigned.of_to in H. simpl in H.
  rewrite E in H. unfold Decimal.unorm in H. simpl in H.
  destruct (Decimal.nzhead d) eqn:N; try discriminate.
  - injection H as ->. now apply (DecimalPos.Unsigned.to_uint_nonzero p).
  - now apply nzhead_no_D0 in N.
Qed.

Lemma String_pos (p : positive) :
  exists c r, JS.String_ (Zpos p) = String c r /\ c <> "0"%char.
Proof.
  unfold JS.String_. simpl.
  pose proof (to_uint_no_D0 p) as Z.
  pose proof (DecimalPos.Unsigned.to_uint_nonnil p) as N.
  destruct (Pos.to_uint p) as [|d|d|d|d|d|d|d|d|d|d]; simpl;
    try (eexists; eexists; split; [reflexivity | discriminate]).
  - congruence.
  - exfalso. now apply (Z d).
Qed.

Lemma String_inj (n m : Z) : JS.String_ n = JS.String_ m -> n = m.
Proof.
  unfold JS.String_. intros H.
  apply DecimalZ.to_int_inj.
  assert (S : forall z, NilZero.int_of_string (NilZero.string_of_int (Z.to_int z))
                        = Some (Z.to_int z)).
  { intros z. apply NilZero.isi.
    - destruct z; simpl; try discriminate.
      intros [= E]. now apply (DecimalPos.Unsigned.to_uint_nonnil p).
    - destruct z; simpl; try discriminate.
      intros [= E]. now apply (DecimalPos.Unsigned.to_uint_nonnil p). }
  pose proof (S n) as Sn. rewrite H, S in Sn. congruence.
Qed.

Lemma padded_inj (n m : Z) :
  1 <= n -> 1 <= m ->
  JS.padStart 2 "0" (JS.String_ n) = JS.padStart 2 "0" (JS.String_ m) ->
  n = m.
Proof.
  intros Hn Hm H. apply String_inj.
  destruct n as [|p|p]; try lia. destruct m as [|q|q]; try lia.
  destruct (String_pos p) as (c & r & Ep & Nc).
  destruct (String_pos q) as (c' & r' & Eq & Nc').
  rewrite Ep, Eq in *.
  destruct r as [|a r], r' as [|a' r']; unfold JS.padStart in H; simpl in H.
  - now injection H as ->.
  - injection H as E _. congruence.
  - injection H as E _. congruence.
  - exact H.
Qed.

(** X18.  The numbering scheme never gives two slides the same file.  For
    two different slide numbers within [1, totalSlides], [goToSlide] assigns
    different targets: the decimal number has no leading zero of its own, so
    the one padding zero of a single-digit number cannot collide with a
    longer number. *)
Theorem slide_files_are_distinct (n m : Z) (s : Presenter.State) :
  1 <= n <= Presenter.totalSlides s ->
  1 <= m <= Presenter.totalSlides s ->
  n <> m ->
  Presenter.href (Presenter.goToSlide n s)
    <> Presenter.href (Presenter.goToSlide m s).
Proof.
  intros Hn Hm N. rewrite !goToSlide_decide.
  destruct (decide _); [|lia]. destruct (decide _); [|lia].
  simpl. intros [= E]. apply N.
  apply padded_inj; [lia | lia |].
  now apply string_app_inv_tail in E.
Qed.

(** Slides 10 and 100 of a deck of 100. *)
Lemma slide_files_are_distinct_witness :
  let s := Presenter.constructor (Samples.deck_page "100" "1" []) in
  Presenter.href (Presenter.goToSlide 10 s) = ["slide-10.html"] /\
  Presenter.href (Presenter.goToSlide 100 s) = ["slide-100.html"] /\
  Presenter.href (Presenter.goToSlide 10 s)
    <> Presenter.href (Presenter.goToSlide 100 s).
Proof.
  intros s. split; [reflexivity|]. split; [reflexivity|].
  apply (slide_files_are_distinct 10 100 s).
  - vm_compute. split; discriminate.
  - vm_compute. split; discriminate.
  - discriminate.
Defined.

(* ===================================================================== *)
(** ** Pages without a slide container *)
(* ===================================================================== *)

Lemma on_course_unified (pg : Unified.Page) (es : list Session.UEvent) :
  Session.on_course (Unified.base pg)
    (Unified.presenter (Session.urun pg es (Unified.loaded pg))).
Proof.
  apply (urun_keeps (Session.on_course (Unified.base pg)) pg es
           (Unified.loaded pg)).
  - apply on_course_next.
  - intros key s. apply on_course_switch_key.
  - apply handled_loaded.
  - apply on_course_constructor.
Qed.

Lemma on_course_split (pg : Split.Page) (es : list Session.SEvent) :
  Session.on_course (Split.base pg)
    (Split.presenter (Session.srun pg es (Split.loaded pg))).
Proof.
  apply (srun_keeps (Session.on_course (Split.base pg)) pg es
           (Split.loaded pg)).
  - apply on_course_next.
  - intros key s. apply on_course_switch_key.
  - apply on_course_constructor.
Qed.

(** Without a container the only reachable target is the index page. *)
Lemma bare_target (pg : Presenter.Page) (url : string) :
  Presenter.slide_container pg = None ->
  Session.reachable_target pg (Presenter.constructor pg) url ->
  url = "index.html".
Proof.
  intros C [E|[E|[E|(n & R & _)]]].
  - exact E.
  - unfold Presenter.custom_target in E. now rewrite C in E.
  - unfold Presenter.custom_target in E. now rewrite C in E.
  - exfalso. revert R.
    unfold Presenter.constructor, Presenter.init. rewrite C.
    destruct (Presenter.slide_el pg); simpl;
      match goal with
      | |- context [Presenter.updateNav ?s] =>
          destruct (updateNav_fields s) as (_ & _ & _ & -> & _)
      end; simpl; lia.
Qed.

(** X19.  A page without [.slide-container] is a dead end for slide
    navigation.  There [totalSlides] stays 0 and no custom target exists, so
    in both variants, whatever the events, the only value ever assigned to
    [window.location.href] is [index.html]: ArrowRight, ArrowLeft, Home, End
    and clicks on the slide move through the fragments at most. *)
Theorem containerless_page_only_leaves_to_index (pu : Unified.Page)
    (ues : list Session.UEvent) (ps : Split.Page) (ses : list Session.SEvent) :
  Presenter.slide_container (Unified.base pu) = None ->
  Presenter.slide_container (Split.base ps) = None ->
  Forall (fun url => url = "index.html")
    (Presenter.href
       (Unified.presenter (Session.urun pu ues (Unified.loaded pu))))
  /\
  Forall (fun url => url = "index.html")
    (Presenter.href
       (Split.presenter (Session.srun ps ses (Split.loaded ps)))).
Proof.
  intros Cu Cs. split.
  - destruct (on_course_unified pu ues) as (_ & F).
    eapply Forall_impl; [exact F|]. intros url. now apply bare_target.
  - destruct (on_course_split ps ses) as (_ & F).
    eapply Forall_impl; [exact F|]. intros url. now apply bare_target.
Qed.

(** Every navigation key in turn on pages without a container. *)
Lemma containerless_page_only_leaves_to_index_witness :
  let ues := [ Session.UKey "ArrowRight"; Session.UKey "End";
               Session.UKey "Home"; Session.UKey "ArrowLeft";
               Session.UKey "Escape" ] in
  let ses := [ Session.SKey "End"; Session.SKey "ArrowRight" ] in
  Presenter.href
    (Unified.presenter
       (Session.urun Cases.bare_info_page ues
          (Unified.loaded Cases.bare_info_page))) = ["index.html"] /\
  Forall (fun url => url = "index.html")
    (Presenter.href
       (Split.presenter
          (Session.srun Cases.bare_notes_page ses
             (Split.loaded Cases.bare_notes_page)))).
Proof.
  intros ues ses. split; [reflexivity|].
  apply (containerless_page_only_leaves_to_index Cases.bare_info_page ues
           Cases.bare_notes_page ses eq_refl eq_refl).
Defined.
